(** * Pikaso shape drawers: the drawing-session state machine

    A shallow embedding of [src/ShapeDrawer/index.ts] (the abstract
    [ShapeDrawer] class) and of the [Pencil] drawer that extends it,
    followed by the properties of the drawing lifecycle.

    Objects live in an explicit store: every drawer of a board is an entry
    of [drawers], every Konva node an entry of [heap], and a reference is
    an index into these.  The board, the stage listener table and the
    window listener table are shared by all drawers, as in the program. *)

From stdpp Require Import base strings list gmap.
From Stdlib Require Import ZArith.

#[local] Open Scope Z_scope.

(** ** Data model *)

Module DrawType.
(** Modelled from the spec: the [DrawType] enumeration of [../types] is
    not among the sources; [Pencil] is the one member the sources name,
    the others stand for the geometric drawers.  No result below depends
    on how many members there are. *)
Inductive t := Pencil | Line | Arrow | Circle | Rect.

#[global] Instance eq_dec : EqDecision t.
Proof. solve_decision. Defined.
End DrawType.

(** [Point] of [../types]: a pair of JavaScript numbers.  The drawers only
    store and copy coordinates, so integers stand for them. *)
Record Point := mkPoint { x : Z; y : Z }.

(** Values of a Konva configuration object. *)
Inductive Value :=
| VNum (n : Z)
| VStr (s : string)
| VPoints (ps : list Z).

#[global] Instance Value_eq_dec : EqDecision Value.
Proof. solve_decision. Defined.

(** [Konva.ShapeConfig] / [Konva.LineConfig]: a JavaScript object used as
    a map from attribute names to values. *)
Abbreviation Config := (gmap string Value).

Module Konva.
(** A [Konva.Line] node: the attributes it was constructed with. *)
Record Line := mkLine { attrs : Config }.

(** [new Konva.Line(config)] *)
Definition new_Line (config : Config) : Line := mkLine config.

(** The [points()] getter; Konva's default is the empty array.
    [LineConfig] types the attribute as [number[]]. *)
Definition points (ln : Line) : list Z :=
  match attrs ln !! "points" with
  | Some (VPoints ps) => ps
  | _ => []
  end.

(** The [points(v)] setter. *)
Definition set_points (ps : list Z) (ln : Line) : Line :=
  mkLine (<["points" := VPoints ps]> (attrs ln)).

(** The [x()] and [y()] getters; Konva's default is [0]. *)
Definition x (ln : Line) : Z :=
  match attrs ln !! "x" with Some (VNum n) => n | _ => 0 end.
Definition y (ln : Line) : Z :=
  match attrs ln !! "y" with Some (VNum n) => n | _ => 0 end.
End Konva.

Abbreviation DrawerId := nat (only parsing).
Abbreviation ShapeRef := nat (only parsing).

(** The four handlers that the constructor binds to the instance.  A bound
    handler is identified by its drawer and its method, which is what
    [off] and [removeEventListener] compare. *)
Inductive Method := OnStartDrawing | OnDrawing | OnFinishDrawing | OnKeyDown.

#[global] Instance Method_eq_dec : EqDecision Method.
Proof. solve_decision. Defined.

Abbreviation Handler := (DrawerId * Method)%type.
Abbreviation Listeners := (list (string * Handler)).

(** The instance fields of a [ShapeDrawer].  [config] and [startPoint] are
    declared without an initialiser, so they are undefined until [draw]
    and [onStartDrawing] assign them; [shape] is null or undefined until a
    shape is created. *)
Record Drawer := mkDrawer {
  config : option Config;
  startPoint : option Point;
  drawType : DrawType.t;
  shape : option ShapeRef
}.

(** Modelled from the spec: the [Board] class is not among the sources.
    It tracks the active draw mode, owns the committed shapes, answers
    pointer-position queries (a position or null), counts redraw requests
    and carries the stage with its listeners and its container's cursor. *)
Record Board := mkBoard {
  activeDrawing : option DrawType.t;
  cursor : string;
  pointer : option Point;
  stageListeners : Listeners;
  shapes : list ShapeRef;
  redraws : nat
}.

Record World := mkWorld {
  board : Board;
  windowListeners : Listeners;
  heap : list Konva.Line;
  drawers : gmap DrawerId Drawer
}.

(** ** Field updates *)

Definition with_config (c : option Config) (d : Drawer) : Drawer :=
  mkDrawer c (startPoint d) (drawType d) (shape d).
Definition with_startPoint (p : option Point) (d : Drawer) : Drawer :=
  mkDrawer (config d) p (drawType d) (shape d).
Definition with_shape (s : option ShapeRef) (d : Drawer) : Drawer :=
  mkDrawer (config d) (startPoint d) (drawType d) s.

Definition with_activeDrawing (a : option DrawType.t) (b : Board) : Board :=
  mkBoard a (cursor b) (pointer b) (stageListeners b) (shapes b) (redraws b).
Definition with_cursor (c : string) (b : Board) : Board :=
  mkBoard (activeDrawing b) c (pointer b) (stageListeners b) (shapes b) (redraws b).
Definition with_pointer (p : option Point) (b : Board) : Board :=
  mkBoard (activeDrawing b) (cursor b) p (stageListeners b) (shapes b) (redraws b).
Definition with_stageListeners (l : Listeners) (b : Board) : Board :=
  mkBoard (activeDrawing b) (cursor b) (pointer b) l (shapes b) (redraws b).
Definition with_shapes (s : list ShapeRef) (b : Board) : Board :=
  mkBoard (activeDrawing b) (cursor b) (pointer b) (stageListeners b) s (redraws b).
Definition with_redraws (n : nat) (b : Board) : Board :=
  mkBoard (activeDrawing b) (cursor b) (pointer b) (stageListeners b) (shapes b) n.

Definition with_board (b : Board) (w : World) : World :=
  mkWorld b (windowListeners w) (heap w) (drawers w).
Definition with_windowListeners (l : Listeners) (w : World) : World :=
  mkWorld (board w) l (heap w) (drawers w).
Definition with_heap (h : list Konva.Line) (w : World) : World :=
  mkWorld (board w) (windowListeners w) h (drawers w).
Definition with_drawers (ds : gmap DrawerId Drawer) (w : World) : World :=
  mkWorld (board w) (windowListeners w) (heap w) ds.

(** ** Results and the method monad *)

(** What a method call can raise.  [TypeError] is JavaScript's error on a
    property access through null or undefined.  [NoSuchObject] marks a
    reference that names no object of the store; JavaScript cannot form
    one, the case only makes the model total. *)
Inductive Error := TypeError | NoSuchObject.

(** A call either returns a value or throws; both leave a world behind
    (effects before a throw are not rolled back). *)
Inductive Outcome (A : Type) :=
| Ret (a : A) (w : World)
| Throw (e : Error) (w : World).
Arguments Ret {A} a w.
Arguments Throw {A} e w.

Definition M (A : Type) : Type := World → Outcome A.

#[global] Instance M_ret : MRet M := λ A a w, Ret a w.
#[global] Instance M_bind : MBind M := λ A B f c w,
  match c w with
  | Ret a w' => f a w'
  | Throw e w' => Throw e w'
  end.

Definition throw {A} (e : Error) : M A := λ w, Throw e w.
Definition gets {A} (f : World → A) : M A := λ w, Ret (f w) w.
Definition modify (f : World → World) : M unit := λ w, Ret tt (f w).
Definition skip : M unit := mret tt.

(** The world a call leaves behind, returned or thrown. *)
Definition world_of {A} (o : Outcome A) : World :=
  match o with Ret _ w => w | Throw _ w => w end.

(** Reading and writing the fields of the drawer [this]. *)
Definition this_get {A} (this : DrawerId) (f : Drawer → A) : M A := λ w,
  match drawers w !! this with
  | Some d => Ret (f d) w
  | None => Throw NoSuchObject w
  end.
Definition this_set (this : DrawerId) (f : Drawer → Drawer) : M unit :=
  modify (λ w, with_drawers (alter f this (drawers w)) w).

(** Allocation of a Konva node, and access through a reference. *)
Definition alloc (ln : Konva.Line) : M ShapeRef := λ w,
  Ret (length (heap w)) (with_heap (heap w ++ [ln]) w).
Definition deref (r : ShapeRef) : M Konva.Line := λ w,
  match heap w !! r with
  | Some ln => Ret ln w
  | None => Throw NoSuchObject w
  end.
Definition store (r : ShapeRef) (ln : Konva.Line) : M unit :=
  modify (λ w, with_heap (<[r := ln]> (heap w)) w).

(** ** The collaborators: board, stage and window *)

Module Board.
Definition upd (f : Board → Board) : M unit :=
  modify (λ w, with_board (f (board w)) w).

(** Modelled from the spec: [Board.setActiveDrawing] is the setter of
    the board's active draw mode ("current active DrawMode get/set"). *)
Definition setActiveDrawing (dt : option DrawType.t) : M unit :=
  upd (with_activeDrawing dt).

(** Modelled from the spec: [Board.addShape] is the "committed-shape
    registration call"; the factory that calls it registers the shape
    with the board and returns it. *)
Definition addShape (r : ShapeRef) : M ShapeRef :=
  upd (λ b, with_shapes (shapes b ++ [r]) b);; mret r.

(** Modelled from the spec: [Board.draw] is the "redraw trigger". *)
Definition draw : M unit :=
  upd (λ b, with_redraws (S (redraws b)) b).

Module stage.
(** [stage.getPointerPosition()]: the position or null. *)
Definition getPointerPosition : M (option Point) :=
  gets (λ w, pointer (board w)).

(** [stage.container().style.cursor = c] *)
Definition set_cursor (c : string) : M unit :=
  upd (with_cursor c).

(** [stage.on('a b', h)]: Konva splits the event string and pushes
    the handler on the list of each event. *)
Definition on (evs : list string) (h : Handler) : M unit :=
  upd (λ b, with_stageListeners
              (stageListeners b ++ ((λ e, (e, h)) <$> evs)) b).

(** [stage.off('a b', h)]: Konva removes every entry of the named
    events whose handler is [h]. *)
Definition off (evs : list string) (h : Handler) : M unit :=
  upd (λ b, with_stageListeners
              (filter (λ eh, ¬ (eh.1 ∈ evs ∧ eh.2 = h))
                      (stageListeners b)) b).
End stage.
End Board.

Module window.
(** [window.addEventListener(ev, h)]: the DOM ignores a listener that
    is already registered for the event. *)
Definition addEventListener (ev : string) (h : Handler) : M unit :=
  modify (λ w,
    if decide ((ev, h) ∈ windowListeners w) then w
    else with_windowListeners (windowListeners w ++ [(ev, h)]) w).

(** [window.removeEventListener(ev, h)] *)
Definition removeEventListener (ev : string) (h : Handler) : M unit :=
  modify (λ w,
    with_windowListeners (filter (λ eh, eh ≠ (ev, h)) (windowListeners w)) w).
End window.

(** ** The abstract class [ShapeDrawer] *)

Module ShapeDrawer.
(** The constructor: a new drawer object for the board, with its four
    handlers bound to it. *)
Definition new (dt : DrawType.t) : M DrawerId := λ w,
  let this := fresh (dom (drawers w)) in
  Ret this (with_drawers (<[this := mkDrawer None None dt None]> (drawers w)) w).

Definition isDrawing (this : DrawerId) : M bool :=
  dt ← this_get this drawType;
  a ← gets (λ w, activeDrawing (board w));
  mret (bool_decide (a = Some dt)).

Definition stopDrawing (this : DrawerId) : M unit :=
  this_set this (with_shape None);;
  Board.setActiveDrawing None;;
  Board.stage.set_cursor "inherit";;
  Board.stage.off ["mousedown"; "touchstart"] (this, OnStartDrawing);;
  Board.stage.off ["mousemove"; "touchmove"] (this, OnDrawing);;
  Board.stage.off ["mouseup"; "touchend"] (this, OnFinishDrawing);;
  window.removeEventListener "mouseup" (this, OnFinishDrawing);;
  window.removeEventListener "touchend" (this, OnFinishDrawing);;
  window.removeEventListener "keydown" (this, OnKeyDown).

(** [insert] calls the abstract [createShape]; the subclass supplies it. *)
Definition insert (createShape : DrawerId → Config → M ShapeRef)
    (this : DrawerId) (config : Config) : M ShapeRef :=
  stopDrawing this;;
  createShape this config.

Definition draw (this : DrawerId) (config : Config) : M unit :=
  this_set this (with_config (Some config));;
  stopDrawing this;;
  dt ← this_get this drawType;
  Board.setActiveDrawing (Some dt);;
  Board.stage.on ["mousedown"; "touchstart"] (this, OnStartDrawing);;
  Board.stage.on ["mousemove"; "touchmove"] (this, OnDrawing);;
  Board.stage.on ["mouseup"; "touchend"] (this, OnFinishDrawing);;
  window.addEventListener "mouseup" (this, OnFinishDrawing);;
  window.addEventListener "touchend" (this, OnFinishDrawing);;
  window.addEventListener "keydown" (this, OnKeyDown).

Definition getShapePosition (this : DrawerId) : M Point :=
  s ← this_get this shape;
  match s with
  | None => throw TypeError
  | Some r => ln ← deref r; mret (mkPoint (Konva.x ln) (Konva.y ln))
  end.

Definition onStartDrawing (this : DrawerId) : M unit :=
  drawing ← isDrawing this;
  if negb drawing then skip
  else
    p ← Board.stage.getPointerPosition;
    match p with
    | None => throw TypeError
    | Some pt => this_set this (with_startPoint (Some (mkPoint (x pt) (y pt))))
    end.

Definition onDrawing (this : DrawerId) : M unit :=
  drawing ← isDrawing this;
  if (drawing : bool) then Board.stage.set_cursor "crosshair" else skip.

Definition onFinishDrawing (this : DrawerId) : M unit :=
  this_set this (with_shape None);;
  Board.stage.set_cursor "inherit".

Definition onKeyDown (this : DrawerId) (key : string) : M unit :=
  if decide (key = "Escape") then stopDrawing this else skip.
End ShapeDrawer.

(** ** The freehand drawer [Pencil] *)

Module Pencil.
Definition new : M DrawerId := ShapeDrawer.new DrawType.Pencil.

Definition draw (this : DrawerId) (config : Config) : M unit :=
  ShapeDrawer.draw this config.

(** [this.shape = new Konva.Line(config)], then [addShape(this.shape)]:
    the field just assigned is read back, so it holds a reference. *)
Definition createShape (this : DrawerId) (config : Config) : M ShapeRef :=
  r ← alloc (Konva.new_Line config);
  this_set this (with_shape (Some r));;
  s ← this_get this shape;
  match s with
  | Some r' => Board.addShape r'
  | None => throw NoSuchObject
  end.

(** The object literal of [onStartDrawing]: the composite operation and
    the one-point seed, then the spread of [this.config], whose keys win
    (the spread of an undefined [config] adds nothing). *)
Definition seed (cfg : option Config) (pt : Point) : Config :=
  default ∅ cfg ∪
    <["globalCompositeOperation" := VStr "source-over"]>
      {["points" := VPoints [x pt; y pt]]}.

Definition onStartDrawing (this : DrawerId) : M unit :=
  ShapeDrawer.onStartDrawing this;;
  sp ← this_get this startPoint;
  match sp with
  | None => throw TypeError
  | Some pt =>
      cfg ← this_get this config;
      createShape this (seed cfg pt);;
      skip
  end.

Definition onDrawing (this : DrawerId) : M unit :=
  ShapeDrawer.onDrawing this;;
  s ← this_get this shape;
  match s with
  | None => skip
  | Some r =>
      p ← Board.stage.getPointerPosition;
      ln ← deref r;
      match p with
      | None => throw TypeError
      | Some pt =>
          store r (Konva.set_points (Konva.points ln ++ [x pt; y pt]) ln);;
          Board.draw
      end
  end.

(** The methods inherited unchanged. *)
Definition insert : DrawerId → Config → M ShapeRef :=
  ShapeDrawer.insert createShape.
Definition stopDrawing := ShapeDrawer.stopDrawing.
Definition isDrawing := ShapeDrawer.isDrawing.
Definition getShapePosition := ShapeDrawer.getShapePosition.
Definition onFinishDrawing := ShapeDrawer.onFinishDrawing.
Definition onKeyDown := ShapeDrawer.onKeyDown.
End Pencil.

(** ** The environment *)

(** A board with no drawer, no listener and no shape; the cursor style of
    the stage's container is the empty string until a drawer sets it. *)
Definition init : World :=
  mkWorld (mkBoard None EmptyString None [] [] 0) [] [] ∅.

(** The stage records the pointer position of an event before it runs
    the handlers of the event. *)
Definition pointerAt (p : Point) : M unit :=
  Board.upd (with_pointer (Some p)).

(** The handlers of drawer [this] that are registered on the stage or on
    the window. *)
Definition listenersOf (this : DrawerId) (w : World) : Listeners :=
  filter (λ eh, eh.2.1 = this) (stageListeners (board w) ++ windowListeners w).

(** The listeners that [draw] registers for [this]: on the stage and on
    the window. *)
Definition stageHandlers (this : DrawerId) : Listeners :=
  [("mousedown", (this, OnStartDrawing)); ("touchstart", (this, OnStartDrawing));
   ("mousemove", (this, OnDrawing)); ("touchmove", (this, OnDrawing));
   ("mouseup", (this, OnFinishDrawing)); ("touchend", (this, OnFinishDrawing))].
Definition windowHandlers (this : DrawerId) : Listeners :=
  [("mouseup", (this, OnFinishDrawing)); ("touchend", (this, OnFinishDrawing));
   ("keydown", (this, OnKeyDown))].

(** The in-progress shape reference of [this]. *)
Definition shapeOf (this : DrawerId) (w : World) : option ShapeRef :=
  d ← drawers w !! this; shape d.

(** A pointer drag: the stage delivers the moves in order to the
    pointer-move handler of the pencil [this]. *)
Fixpoint moves (this : DrawerId) (ps : list Point) : M unit :=
  match ps with
  | [] => skip
  | p :: ps' => pointerAt p;; Pencil.onDrawing this;; moves this ps'
  end.

(** Entering drawing mode, a pointer-down at [p0], then the moves [ps]. *)
Definition stroke (this : DrawerId) (cfg : Config) (p0 : Point)
    (ps : list Point) : M unit :=
  Pencil.draw this cfg;;
  pointerAt p0;; Pencil.onStartDrawing this;;
  moves this ps.

(** The coordinates of a list of points, flattened as Konva stores them. *)
Definition coords (ps : list Point) : list Z :=
  p ← ps; [x p; y p].

(** ** Sample boards

    Worlds reached by running the program from [init]; the first drawer
    created is number 0, the second number 1. *)

(** One pencil, in drawing mode after [draw({})]. *)
Definition w_pencil_drawing : World :=
  world_of ((a ← Pencil.new; Pencil.draw a ∅) init).

(** One pencil after [insert({x: 5, y: 7})]. *)
Definition w_pencil_inserted : World :=
  world_of ((a ← Pencil.new;
             Pencil.insert a (<["x" := VNum 5]> {["y" := VNum 7]});; skip) init).

(** A pencil and a line drawer; the line drawer is in drawing mode. *)
Definition w_line_active : World :=
  world_of ((a ← Pencil.new; b ← ShapeDrawer.new DrawType.Line;
             ShapeDrawer.draw b ∅) init).

(** A pencil and a line drawer; [draw] was called on the pencil and then
    on the line drawer. *)
Definition w_both_drawn : World :=
  world_of ((a ← Pencil.new; b ← ShapeDrawer.new DrawType.Line;
             Pencil.draw a ∅;; ShapeDrawer.draw b ∅) init).

(** The pencil drew a one-point shape anchored at (3,4) and finished it;
    then [draw] was called on the line drawer, and the pointer went down
    at (7,8). *)
Definition w_pencil_stale_anchor : World :=
  world_of ((a ← Pencil.new; b ← ShapeDrawer.new DrawType.Line;
             Pencil.draw a ∅;;
             pointerAt (mkPoint 3 4);; Pencil.onStartDrawing a;;
             Pencil.onFinishDrawing a;;
             ShapeDrawer.draw b ∅;;
             pointerAt (mkPoint 7 8)) init).

(** The pencil started a shape at (0,0); before the pointer went up,
    [draw] was called on the line drawer, and the pointer moved to (5,5). *)
Definition w_pencil_stale_shape : World :=
  world_of ((a ← Pencil.new; b ← ShapeDrawer.new DrawType.Line;
             Pencil.draw a ∅;;
             pointerAt (mkPoint 0 0);; Pencil.onStartDrawing a;;
             ShapeDrawer.draw b ∅;;
             pointerAt (mkPoint 5 5)) init).

(** The config of the direct insertion [insert({x: 5, y: 5, radius: 3})]. *)
Definition circle_config : Config :=
  <["x" := VNum 5]> (<["y" := VNum 5]> {["radius" := VNum 3]}).

(** One pencil, just constructed. *)
Definition w_pencil_new : World := world_of (Pencil.new init).

(** A pencil and a line drawer; the pencil is in drawing mode and has
    started a shape at (0,0). *)
Definition w_pencil_midstroke : World :=
  world_of ((a ← Pencil.new; b ← ShapeDrawer.new DrawType.Line;
             Pencil.draw a ∅;;
             pointerAt (mkPoint 0 0);; Pencil.onStartDrawing a) init).

(** ** Frames *)

(** [w'] has the active draw mode and the listener tables of [w]. *)
Definition same_mode (w w' : World) : Prop :=
  activeDrawing (board w') = activeDrawing (board w) ∧
  stageListeners (board w') = stageListeners (board w) ∧
  windowListeners w' = windowListeners w.

(** A computation that, returning or throwing, never changes the active
    draw mode or a listener table. *)
Definition keeps_mode {A} (c : M A) : Prop :=
  ∀ w, same_mode w (world_of (c w)).

(** ** Gestures *)

(** A whole gesture of the pencil: the stroke, then the pointer goes up. *)
Definition gesture (this : DrawerId) (cfg : Config) (p0 : Point)
    (ps : list Point) : M unit :=
  stroke this cfg p0 ps;; Pencil.onFinishDrawing this.

(** A stroke that the Escape key cuts short. *)
Definition cancelled (this : DrawerId) (cfg : Config) (p0 : Point)
    (ps : list Point) : M unit :=
  stroke this cfg p0 ps;; Pencil.onKeyDown this "Escape".

(** A drawer has all the listeners of [draw] registered. *)
Definition attached (this : DrawerId) (w : World) : Prop :=
  stageHandlers this ⊆ stageListeners (board w) ∧
  windowHandlers this ⊆ windowListeners w.

(** Two pencils on one board; [draw] was called on the first. *)
Definition w_two_pencils : World :=
  world_of ((a ← Pencil.new; b ← Pencil.new; Pencil.draw a ∅) init).

(** A pencil in drawing mode whose draft config brings two points and a
    composite operation of its own. *)
Definition eraser_config : Config :=
  <["points" := VPoints [9; 9; 8; 8]]>
    {["globalCompositeOperation" := VStr "destination-out"]}.

(** The pencil holds the shape started at (0,0) and the pointer is now
    at (6,6). *)
Definition w_pencil_second_down : World :=
  world_of ((a ← Pencil.new; b ← ShapeDrawer.new DrawType.Line;
             Pencil.draw a ∅;;
             pointerAt (mkPoint 0 0);; Pencil.onStartDrawing a;;
             pointerAt (mkPoint 6 6)) init).

(** The pencil holds the shape started at (0,0) and the stage reports no
    pointer position. *)
Definition w_pencil_no_pointer : World :=
  world_of ((a ← Pencil.new; b ← ShapeDrawer.new DrawType.Line;
             Pencil.draw a ∅;;
             pointerAt (mkPoint 0 0);; Pencil.onStartDrawing a;;
             Board.upd (with_pointer None)) init).

(** ** Call sequences *)

(** One call from outside or one event.  The methods that [ShapeDrawer]
    defines and [Pencil] inherits are run on any drawer of the board; the
    methods that [Pencil] defines are run on drawers of type [Pencil],
    which only the [Pencil] constructor creates.  A throw ends the call
    and leaves the state it had reached.  The stage records the pointer
    position, or none, before it runs the handlers. *)
Inductive step : World → World → Prop :=
| step_new (dt : DrawType.t) (w : World) :
    step w (world_of (ShapeDrawer.new dt w))
| step_pointer (p : option Point) (w : World) :
    step w (with_board (with_pointer p (board w)) w)
| step_draw (this : DrawerId) (cfg : Config) (w : World) :
    is_Some (drawers w !! this) →
    step w (world_of (ShapeDrawer.draw this cfg w))
| step_stopDrawing (this : DrawerId) (w : World) :
    is_Some (drawers w !! this) →
    step w (world_of (ShapeDrawer.stopDrawing this w))
| step_onFinishDrawing (this : DrawerId) (w : World) :
    is_Some (drawers w !! this) →
    step w (world_of (ShapeDrawer.onFinishDrawing this w))
| step_onKeyDown (this : DrawerId) (key : string) (w : World) :
    is_Some (drawers w !! this) →
    step w (world_of (ShapeDrawer.onKeyDown this key w))
| step_insert (this : DrawerId) (cfg : Config) (w : World) (d : Drawer) :
    drawers w !! this = Some d → drawType d = DrawType.Pencil →
    step w (world_of (Pencil.insert this cfg w))
| step_onStartDrawing (this : DrawerId) (w : World) (d : Drawer) :
    drawers w !! this = Some d → drawType d = DrawType.Pencil →
    step w (world_of (Pencil.onStartDrawing this w))
| step_onDrawing (this : DrawerId) (w : World) (d : Drawer) :
    drawers w !! this = Some d → drawType d = DrawType.Pencil →
    step w (world_of (Pencil.onDrawing this w)).

(** The states of a board that starts empty. *)
Definition reachable (w : World) : Prop := rtc step init w.

(** The listeners of a drawer in the two tables are exactly those of
    [draw], in the order of registration; or there is none. *)
Definition registered (this : DrawerId) (w : World) : Prop :=
  filter (λ eh, eh.2.1 = this) (stageListeners (board w)) = stageHandlers this ∧
  filter (λ eh, eh.2.1 = this) (windowListeners w) = windowHandlers this.
Definition unregistered (this : DrawerId) (w : World) : Prop :=
  filter (λ eh, eh.2.1 = this) (stageListeners (board w)) = [] ∧
  filter (λ eh, eh.2.1 = this) (windowListeners w) = [].

(** The state that [createShape] leaves when drawer [this], with fields
    [d], creates a line from [cfg]. *)
Definition created (this : DrawerId) (d : Drawer) (cfg : Config)
    (w : World) : World :=
  mkWorld (with_shapes (shapes (board w) ++ [length (heap w)]) (board w))
    (windowListeners w)
    (heap w ++ [Konva.new_Line cfg])
    (<[this := with_shape (Some (length (heap w))) d]> (drawers w)).

(** A step that leaves the mode and the tables alone, and the drawers in
    place with their type and config. *)
Definition same_session (w w' : World) : Prop :=
  activeDrawing (board w') = activeDrawing (board w) ∧
  stageListeners (board w') = stageListeners (board w) ∧
  windowListeners w' = windowListeners w ∧
  ∀ i d, drawers w !! i = Some d →
    ∃ d', drawers w' !! i = Some d' ∧
          drawType d' = drawType d ∧ config d' = config d.

(** The invariants of a board. *)
Definition tables_ok (w : World) : Prop :=
  NoDup (stageListeners (board w)) ∧
  NoDup (windowListeners w) ∧
  ∀ i, registered i w ∨ unregistered i w.

Definition sessions_ok (w : World) : Prop :=
  (∀ i, registered i w →
     ∃ d cfg, drawers w !! i = Some d ∧ config d = Some cfg) ∧
  (∀ t, activeDrawing (board w) = Some t →
     ∃ i d, drawers w !! i = Some d ∧ drawType d = t ∧ registered i w).

Definition store_ok (w : World) : Prop :=
  shapes (board w) = seq 0 (length (heap w)) ∧
  ∀ i d r, drawers w !! i = Some d → shape d = Some r →
    (r < length (heap w))%nat.

(** Lines are kept and their points only grow. *)
Definition grows (w w' : World) : Prop :=
  shapes (board w) `prefix_of` shapes (board w') ∧
  ∀ r ln, heap w !! r = Some ln →
    ∃ ln', heap w' !! r = Some ln' ∧
           Konva.points ln `prefix_of` Konva.points ln' ∧
           ∀ k, k ≠ "points" → Konva.attrs ln' !! k = Konva.attrs ln !! k.

(** A call sequence on an empty board: a pencil and a line drawer are
    constructed, the pencil enters drawing mode, the pointer goes down at
    (0,0) and moves to (1,1), and [draw] is called on the line drawer. *)
Definition s_pencil : World := world_of (ShapeDrawer.new DrawType.Pencil init).
Definition s_line : World := world_of (ShapeDrawer.new DrawType.Line s_pencil).
Definition s_drawn : World := world_of (ShapeDrawer.draw 0 ∅ s_line).
Definition s_down_at : World :=
  with_board (with_pointer (Some (mkPoint 0 0)) (board s_drawn)) s_drawn.
Definition s_down : World := world_of (Pencil.onStartDrawing 0 s_down_at).
Definition s_move_at : World :=
  with_board (with_pointer (Some (mkPoint 1 1)) (board s_down)) s_down.
Definition s_moved : World := world_of (Pencil.onDrawing 0 s_move_at).
Definition s_taken : World := world_of (ShapeDrawer.draw 1 ∅ s_moved).

(** ** Stepping lemmas *)

Ltac unfold_m :=
  unfold mbind, M_bind, mret, M_ret, throw, gets, modify, skip,
    this_get, this_set, alloc, deref, store, Board.upd.

Ltac unfold_with :=
  unfold with_board, with_windowListeners, with_heap, with_drawers,
    with_activeDrawing, with_cursor, with_pointer, with_stageListeners,
    with_shapes, with_redraws; cbn.

Lemma stopDrawing_spec (this : DrawerId) (w : World) :
  ShapeDrawer.stopDrawing this w =
  Ret tt
    (mkWorld
       (mkBoard None "inherit" (pointer (board w))
          (filter (λ eh, eh ∉ stageHandlers this) (stageListeners (board w)))
          (shapes (board w)) (redraws (board w)))
       (filter (λ eh, eh ∉ windowHandlers this) (windowListeners w))
       (heap w)
       (alter (with_shape None) this (drawers w))).
Proof.
  unfold ShapeDrawer.stopDrawing, Board.setActiveDrawing, Board.stage.set_cursor,
    Board.stage.off, window.removeEventListener.
  unfold_m. cbn. unfold_with. do 2 f_equal.
  - f_equal. rewrite !list_filter_filter. apply list_filter_iff.
    intros [e [d m]]. unfold stageHandlers. cbn.
    rewrite !not_elem_of_cons, !elem_of_cons, !elem_of_nil.
    split; [intros [[H3 H2] H1] | intros (H1 & H2 & H3 & H4 & H5 & H6 & _)].
    + repeat split; try (intros [=]; subst; tauto). tauto.
    + repeat split; intros [[Hev | [Hev | []]] [=]]; subst; cbn in *; tauto.
  - rewrite !list_filter_filter. apply list_filter_iff.
    intros [e [d m]]. unfold windowHandlers.
    rewrite !not_elem_of_cons, !elem_of_nil. tauto.
Qed.

Lemma alter_lookup_Some (f : Drawer → Drawer) (this : DrawerId)
    (ds : gmap DrawerId Drawer) (d : Drawer) :
  ds !! this = Some d → alter f this ds = <[this := f d]> ds.
Proof.
  intros Hd. apply map_eq. intros i. destruct (decide (i = this)) as [->|Hne].
  - by rewrite lookup_alter_eq, lookup_insert_eq, Hd.
  - by rewrite lookup_alter_ne, lookup_insert_ne.
Qed.

Lemma addEventListener_fresh (ev : string) (h : Handler) (w : World) :
  (ev, h) ∉ windowListeners w →
  window.addEventListener ev h w
  = Ret tt (with_windowListeners (windowListeners w ++ [(ev, h)]) w).
Proof.
  intros Hnew. unfold window.addEventListener, modify.
  by rewrite decide_False.
Qed.

Lemma draw_spec (this : DrawerId) (cfg : Config) (w : World) (d : Drawer) :
  drawers w !! this = Some d →
  ShapeDrawer.draw this cfg w =
  Ret tt
    (mkWorld
       (mkBoard (Some (drawType d)) "inherit" (pointer (board w))
          (filter (λ eh, eh ∉ stageHandlers this) (stageListeners (board w))
             ++ stageHandlers this)
          (shapes (board w)) (redraws (board w)))
       (filter (λ eh, eh ∉ windowHandlers this) (windowListeners w)
          ++ windowHandlers this)
       (heap w)
       (<[this := mkDrawer (Some cfg) (startPoint d) (drawType d) None]> (drawers w))).
Proof.
  intros Hd. unfold ShapeDrawer.draw, mbind, M_bind.
  unfold this_set at 1. unfold modify. rewrite stopDrawing_spec.
  destruct w as [[a c p sl sh rd] wl0 h ds]. cbn in Hd.
  unfold this_get. cbn [drawers with_drawers board windowListeners heap].
  rewrite !lookup_alter_eq, Hd.
  unfold Board.setActiveDrawing, Board.stage.on, Board.upd, modify.
  cbn -[window.addEventListener filter stageHandlers windowHandlers].
  set (wl := filter _ wl0).
  assert (Hnot : ∀ eh, eh ∈ windowHandlers this → eh ∉ wl).
  { intros eh Hin Hel. apply list_elem_of_filter in Hel as [Hn _]. done. }
  unfold windowHandlers in Hnot.
  rewrite addEventListener_fresh.
  2: { cbn. apply Hnot. rewrite !elem_of_cons. tauto. }
  cbn -[window.addEventListener filter stageHandlers windowHandlers].
  rewrite addEventListener_fresh.
  2: { cbn. rewrite elem_of_app, list_elem_of_singleton.
       intros [Hin|[=]]. eapply Hnot; [|exact Hin]. rewrite !elem_of_cons. tauto. }
  cbn -[window.addEventListener filter stageHandlers windowHandlers].
  rewrite addEventListener_fresh.
  2: { cbn. rewrite !elem_of_app, !list_elem_of_singleton.
       intros [[Hin|[=]]|[=]]. eapply Hnot; [|exact Hin]. rewrite !elem_of_cons. tauto. }
  cbn -[filter stageHandlers windowHandlers].
  unfold with_windowListeners, with_board, with_stageListeners,
    with_activeDrawing.
  cbn -[filter stageHandlers windowHandlers].
  rewrite <- !app_assoc. cbn [app].
  do 2 f_equal. apply map_eq. intros i.
  destruct (decide (i = this)) as [->|Hne].
  - by rewrite !lookup_alter_eq, lookup_insert_eq, Hd.
  - by rewrite !lookup_alter_ne, lookup_insert_ne.
Qed.

Lemma filter_fixed {A} (P : A → Prop) `{!∀ a, Decision (P a)} (l : list A) :
  Forall P l → filter P l = l.
Proof.
  induction 1 as [|a l Ha _ IH]; [done|].
  by rewrite filter_cons_True, IH.
Qed.

Lemma filter_twice {A} (P : A → Prop) `{!∀ a, Decision (P a)} (l : list A) :
  filter P (filter P l) = filter P l.
Proof.
  apply filter_fixed, Forall_forall. intros a Ha.
  by apply list_elem_of_filter in Ha as [? _].
Qed.

Lemma isDrawing_spec (this : DrawerId) (w : World) (d : Drawer) :
  drawers w !! this = Some d →
  ShapeDrawer.isDrawing this w =
  Ret (bool_decide (activeDrawing (board w) = Some (drawType d))) w.
Proof. intros Hd. unfold ShapeDrawer.isDrawing. unfold_m. by rewrite Hd. Qed.

(** ** Properties of [stopDrawing] *)

Lemma removed_not_registered (hs l : Listeners) :
  Forall (λ eh, eh ∉ filter (λ eh', eh' ∉ hs) l) hs.
Proof.
  apply Forall_forall. intros eh Hin Hel.
  by apply list_elem_of_filter in Hel as [Hn _].
Qed.

(** C2.  After [stopDrawing()], from any state, the drawer's shape
    reference is null (its other fields are as before) and none of the
    listeners that [draw] attaches for this drawer, on the stage or on the
    window, is registered. *)
Theorem stopDrawing_clears_shape_and_listeners (this : DrawerId) (w : World) :
  ∃ w', ShapeDrawer.stopDrawing this w = Ret tt w' ∧
        shapeOf this w' = None ∧
        drawers w' !! this = with_shape None <$> drawers w !! this ∧
        Forall (λ eh, eh ∉ stageListeners (board w')) (stageHandlers this) ∧
        Forall (λ eh, eh ∉ windowListeners w') (windowHandlers this).
Proof.
  eexists. split; [apply stopDrawing_spec|]. cbn.
  assert (Hl : alter (with_shape None) this (drawers w) !! this
               = with_shape None <$> drawers w !! this)
    by apply lookup_alter_eq.
  repeat split.
  - unfold shapeOf. cbn. rewrite Hl. by destruct (drawers w !! this).
  - exact Hl.
  - apply removed_not_registered.
  - apply removed_not_registered.
Qed.

(** C8.  [stopDrawing()] is idempotent: the first call returns, and a
    second call on the resulting state returns as well and leaves exactly
    that state. *)
Theorem stopDrawing_idempotent (this : DrawerId) (w : World) :
  ∃ w1, ShapeDrawer.stopDrawing this w = Ret tt w1 ∧
        ShapeDrawer.stopDrawing this w1 = Ret tt w1 ∧
        (ShapeDrawer.stopDrawing this;; ShapeDrawer.stopDrawing this) w
        = ShapeDrawer.stopDrawing this w.
Proof.
  eexists. split; [apply stopDrawing_spec|].
  assert (Hagain : ∀ w0, ShapeDrawer.stopDrawing this (world_of (ShapeDrawer.stopDrawing this w0))
                         = ShapeDrawer.stopDrawing this w0).
  { intros w0. rewrite (stopDrawing_spec this w0). cbn.
    rewrite stopDrawing_spec. cbn. rewrite !filter_twice.
    do 2 f_equal. apply map_eq. intros i.
    destruct (decide (i = this)) as [->|Hne].
    - rewrite !lookup_alter_eq. by destruct (drawers w0 !! this).
    - by rewrite !lookup_alter_ne. }
  split.
  - specialize (Hagain w). rewrite (stopDrawing_spec this w) in Hagain.
    exact Hagain.
  - unfold mbind, M_bind. specialize (Hagain w).
    rewrite (stopDrawing_spec this w) in *. exact Hagain.
Qed.

Lemma stageHandlers_owner (this : DrawerId) (eh : string * Handler) :
  eh ∈ stageHandlers this → eh.2.1 = this.
Proof.
  unfold stageHandlers. rewrite !elem_of_cons, elem_of_nil.
  intros H. repeat (destruct H as [->|H]; [done|]). done.
Qed.

Lemma windowHandlers_owner (this : DrawerId) (eh : string * Handler) :
  eh ∈ windowHandlers this → eh.2.1 = this.
Proof.
  unfold windowHandlers. rewrite !elem_of_cons, elem_of_nil.
  intros H. repeat (destruct H as [->|H]; [done|]). done.
Qed.

(** Removing the handlers of [this] from a table keeps those of another
    drawer, in their order. *)
Lemma filter_other_owner (this other : DrawerId) (hs : DrawerId → Listeners)
    (l : Listeners) :
  (∀ eh, eh ∈ hs this → eh.2.1 = this) →
  other ≠ this →
  filter (λ eh, eh.2.1 = other) (filter (λ eh, eh ∉ hs this) l)
  = filter (λ eh, eh.2.1 = other) l.
Proof.
  intros Hown Hne. rewrite list_filter_filter. apply list_filter_iff.
  intros eh. split; [tauto|]. intros Heq. split; [done|].
  intros Hin. apply Hown in Hin. congruence.
Qed.

(** C3 (as the code has it).  [stopDrawing()] sets the board's active draw
    mode to none, whichever drawer calls it; the mode is the same after
    the call as before exactly when no mode was active.  The committed
    shapes, the shape store, and the fields and listeners of every other
    drawer are as before. *)
Theorem stopDrawing_clears_active_mode (this : DrawerId) (w : World) :
  ∃ w', ShapeDrawer.stopDrawing this w = Ret tt w' ∧
        activeDrawing (board w') = None ∧
        (activeDrawing (board w') = activeDrawing (board w)
         ↔ activeDrawing (board w) = None) ∧
        shapes (board w') = shapes (board w) ∧
        heap w' = heap w ∧
        ∀ other, other ≠ this →
          drawers w' !! other = drawers w !! other ∧
          listenersOf other w' = listenersOf other w.
Proof.
  eexists. split; [apply stopDrawing_spec|]. cbn.
  repeat split; try done.
  - by rewrite lookup_alter_ne.
  - unfold listenersOf. cbn. rewrite !filter_app.
    rewrite (filter_other_owner this other stageHandlers),
            (filter_other_owner this other windowHandlers);
      auto using stageHandlers_owner, windowHandlers_owner.
Qed.

(** C3 as stated fails: the pencil is not the active drawer (the line
    drawer is), and the pencil's [stopDrawing()] changes the board's
    active draw mode from [Line] to none. *)
Lemma stopDrawing_inactive_changes_mode :
  ShapeDrawer.isDrawing 0 w_line_active = Ret false w_line_active ∧
  activeDrawing (board w_line_active) = Some DrawType.Line ∧
  activeDrawing (board (world_of (ShapeDrawer.stopDrawing 0 w_line_active)))
  ≠ activeDrawing (board w_line_active).
Proof. vm_compute. repeat split; discriminate. Qed.

(** ** Computations that keep the mode *)

Lemma same_mode_refl (w : World) : same_mode w w.
Proof. by repeat split. Qed.

Lemma same_mode_trans (w1 w2 w3 : World) :
  same_mode w1 w2 → same_mode w2 w3 → same_mode w1 w3.
Proof. unfold same_mode. intros (-> & -> & ->) (-> & -> & ->). by repeat split. Qed.

Lemma keeps_bind {A B} (c : M A) (f : A → M B) :
  keeps_mode c → (∀ a, keeps_mode (f a)) → keeps_mode (c ≫= f).
Proof.
  intros Hc Hf w. unfold mbind, M_bind. specialize (Hc w).
  destruct (c w) as [a w1|e w1]; cbn in *; [|done].
  eapply same_mode_trans; [exact Hc|apply Hf].
Qed.

Lemma keeps_ret {A} (a : A) : keeps_mode (mret a).
Proof. intros w. apply same_mode_refl. Qed.

Lemma keeps_skip : keeps_mode skip.
Proof. intros w. apply same_mode_refl. Qed.

Lemma keeps_throw {A} (e : Error) : keeps_mode (throw (A := A) e).
Proof. intros w. apply same_mode_refl. Qed.

Lemma keeps_gets {A} (f : World → A) : keeps_mode (gets f).
Proof. intros w. apply same_mode_refl. Qed.

Lemma keeps_this_get {A} (this : DrawerId) (f : Drawer → A) :
  keeps_mode (this_get this f).
Proof.
  intros w. unfold this_get. destruct (drawers w !! this); apply same_mode_refl.
Qed.

Lemma keeps_this_set (this : DrawerId) (f : Drawer → Drawer) :
  keeps_mode (this_set this f).
Proof. intros w. by repeat split. Qed.

Lemma keeps_alloc (ln : Konva.Line) : keeps_mode (alloc ln).
Proof. intros w. by repeat split. Qed.

Lemma keeps_deref (r : ShapeRef) : keeps_mode (deref r).
Proof.
  intros w. unfold deref. destruct (heap w !! r); apply same_mode_refl.
Qed.

Lemma keeps_store (r : ShapeRef) (ln : Konva.Line) : keeps_mode (store r ln).
Proof. intros w. by repeat split. Qed.

Lemma keeps_set_cursor (c : string) : keeps_mode (Board.stage.set_cursor c).
Proof. intros w. by repeat split. Qed.

Lemma keeps_getPointerPosition : keeps_mode Board.stage.getPointerPosition.
Proof. intros w. apply same_mode_refl. Qed.

Lemma keeps_addShape (r : ShapeRef) : keeps_mode (Board.addShape r).
Proof. intros w. by repeat split. Qed.

Lemma keeps_board_draw : keeps_mode Board.draw.
Proof. intros w. by repeat split. Qed.

Create HintDb keeps.
#[local] Hint Resolve keeps_ret keeps_skip keeps_throw keeps_gets
  keeps_this_get keeps_this_set keeps_alloc keeps_deref keeps_store
  keeps_set_cursor keeps_getPointerPosition keeps_addShape keeps_board_draw
  : keeps.

(** Walks through a method body: binds, primitive calls, and the tests on
    the values read. *)
Ltac keeps :=
  repeat first
    [ apply keeps_bind; [|intros ?]
    | match goal with
      | |- keeps_mode (match ?v with _ => _ end) => destruct v
      end
    | solve [auto with keeps] ].

Lemma keeps_isDrawing (this : DrawerId) : keeps_mode (ShapeDrawer.isDrawing this).
Proof. unfold ShapeDrawer.isDrawing. keeps. Qed.

#[local] Hint Resolve keeps_isDrawing : keeps.

Lemma keeps_base_onStartDrawing (this : DrawerId) :
  keeps_mode (ShapeDrawer.onStartDrawing this).
Proof. unfold ShapeDrawer.onStartDrawing. keeps. Qed.

Lemma keeps_base_onDrawing (this : DrawerId) :
  keeps_mode (ShapeDrawer.onDrawing this).
Proof. unfold ShapeDrawer.onDrawing. keeps. Qed.

Lemma keeps_onFinishDrawing (this : DrawerId) :
  keeps_mode (ShapeDrawer.onFinishDrawing this).
Proof. unfold ShapeDrawer.onFinishDrawing. keeps. Qed.

Lemma keeps_createShape (this : DrawerId) (config : Config) :
  keeps_mode (Pencil.createShape this config).
Proof. unfold Pencil.createShape. keeps. Qed.

#[local] Hint Resolve keeps_base_onStartDrawing keeps_base_onDrawing
  keeps_createShape : keeps.

Lemma keeps_pencil_onStartDrawing (this : DrawerId) :
  keeps_mode (Pencil.onStartDrawing this).
Proof. unfold Pencil.onStartDrawing. keeps. Qed.

Lemma keeps_pencil_onDrawing (this : DrawerId) :
  keeps_mode (Pencil.onDrawing this).
Proof. unfold Pencil.onDrawing. keeps. Qed.

Lemma keeps_onKeyDown_other (this : DrawerId) (key : string) :
  key ≠ "Escape" → keeps_mode (ShapeDrawer.onKeyDown this key).
Proof.
  intros Hkey. unfold ShapeDrawer.onKeyDown.
  destruct (decide (key = "Escape")); [done|]. keeps.
Qed.

(** ** The pointer-up handler *)

(** C9.  For a drawer in drawing mode, [onFinishDrawing] returns and
    changes only the drawer's shape reference (to null) and the cursor (to
    [inherit]): the active draw mode is still this drawer's type,
    [isDrawing()] is still true, and the stage and window listener tables
    are as before.  The pencil's pointer-down and pointer-move handlers,
    returning or throwing, leave the active draw mode and the listener
    tables as they are too, and so does the key handler for any key but
    Escape. *)
Theorem onFinishDrawing_keeps_mode (this : DrawerId) (w : World)
    (Hmode : ShapeDrawer.isDrawing this w = Ret true w) :
  (∃ w', ShapeDrawer.onFinishDrawing this w = Ret tt w' ∧
         w' = with_board (with_cursor "inherit" (board w))
                (with_drawers (alter (with_shape None) this (drawers w)) w) ∧
         ShapeDrawer.isDrawing this w' = Ret true w' ∧
         activeDrawing (board w') = activeDrawing (board w) ∧
         stageListeners (board w') = stageListeners (board w) ∧
         windowListeners w' = windowListeners w ∧
         listenersOf this w' = listenersOf this w ∧
         shapeOf this w' = None) ∧
  same_mode w (world_of (Pencil.onStartDrawing this w)) ∧
  same_mode w (world_of (Pencil.onDrawing this w)) ∧
  (∀ key, key ≠ "Escape" →
     same_mode w (world_of (ShapeDrawer.onKeyDown this key w))).
Proof.
  split; [|split; [apply keeps_pencil_onStartDrawing|
           split; [apply keeps_pencil_onDrawing|
                   intros key Hkey; by apply keeps_onKeyDown_other]]].
  destruct (drawers w !! this) as [d|] eqn:Hd.
  2: { unfold ShapeDrawer.isDrawing, mbind, M_bind, this_get in Hmode.
       rewrite Hd in Hmode. discriminate. }
  rewrite (isDrawing_spec _ _ _ Hd) in Hmode. injection Hmode as Hb.
  eexists. split; [reflexivity|]. split; [reflexivity|].
  assert (Hd' : alter (with_shape None) this (drawers w) !! this
                = Some (with_shape None d)) by by rewrite lookup_alter_eq, Hd.
  repeat split.
  - erewrite isDrawing_spec by exact Hd'. cbn. by rewrite Hb.
  - unfold shapeOf. cbn. by rewrite Hd'.
Qed.

(** The pointer-up on a pencil in drawing mode. *)
Lemma onFinishDrawing_keeps_mode_witness :
  ShapeDrawer.isDrawing 0 w_pencil_drawing = Ret true w_pencil_drawing ∧
  ∃ w', ShapeDrawer.onFinishDrawing 0 w_pencil_drawing = Ret tt w' ∧
        w' = with_board (with_cursor "inherit" (board w_pencil_drawing))
               (with_drawers (alter (with_shape None) 0%nat
                                (drawers w_pencil_drawing)) w_pencil_drawing) ∧
        ShapeDrawer.isDrawing 0 w' = Ret true w' ∧
        activeDrawing (board w') = activeDrawing (board w_pencil_drawing) ∧
        stageListeners (board w') = stageListeners (board w_pencil_drawing) ∧
        windowListeners w' = windowListeners w_pencil_drawing ∧
        listenersOf 0 w' = listenersOf 0 w_pencil_drawing ∧
        shapeOf 0 w' = None.
Proof.
  split; [reflexivity|].
  apply (onFinishDrawing_keeps_mode 0 w_pencil_drawing). reflexivity.
Defined.

(** ** The position query *)

(** C7.  [getShapePosition()] throws a [TypeError] when the drawer has no
    in-progress shape, and leaves the state as it was; with an in-progress
    shape it returns the origin that the shape's [x()] and [y()] report. *)
Theorem getShapePosition_spec (this : DrawerId) (w : World) (d : Drawer)
    (Hd : drawers w !! this = Some d) :
  (shape d = None →
   ShapeDrawer.getShapePosition this w = Throw TypeError w) ∧
  (∀ r ln, shape d = Some r → heap w !! r = Some ln →
   ShapeDrawer.getShapePosition this w
   = Ret (mkPoint (Konva.x ln) (Konva.y ln)) w).
Proof.
  unfold ShapeDrawer.getShapePosition. unfold_m. rewrite Hd. split.
  - by intros ->.
  - intros r ln -> Hln. cbn. by rewrite Hln.
Qed.

(** The query on a pencil without a shape, and on one holding the line
    inserted at (5,7). *)
Lemma getShapePosition_spec_witness :
  ShapeDrawer.getShapePosition 0 w_pencil_drawing
  = Throw TypeError w_pencil_drawing ∧
  ShapeDrawer.getShapePosition 0 w_pencil_inserted
  = Ret (mkPoint 5 7) w_pencil_inserted.
Proof.
  split.
  - refine (proj1 (getShapePosition_spec 0 w_pencil_drawing _ _) _);
      reflexivity.
  - refine (proj2 (getShapePosition_spec 0 w_pencil_inserted
                     (mkDrawer None None DrawType.Pencil (Some 0%nat)) _) 0%nat
                  (Konva.new_Line (<["x" := VNum 5]> {["y" := VNum 7]})) _ _);
      reflexivity.
Defined.

(** ** Stepping lemmas for the pencil *)

Lemma createShape_spec (this : DrawerId) (cfg : Config) (w : World) (d : Drawer) :
  drawers w !! this = Some d →
  Pencil.createShape this cfg w =
  Ret (length (heap w))
    (mkWorld (with_shapes (shapes (board w) ++ [length (heap w)]) (board w))
       (windowListeners w)
       (heap w ++ [Konva.new_Line cfg])
       (<[this := with_shape (Some (length (heap w))) d]> (drawers w))).
Proof.
  intros Hd. unfold Pencil.createShape, Board.addShape. unfold_m. cbn.
  rewrite lookup_alter_eq, Hd. cbn. unfold_with.
  by rewrite (alter_lookup_Some _ _ _ _ Hd).
Qed.

Lemma base_onStartDrawing_idle (this : DrawerId) (w : World) (d : Drawer) :
  drawers w !! this = Some d →
  activeDrawing (board w) ≠ Some (drawType d) →
  ShapeDrawer.onStartDrawing this w = Ret tt w.
Proof.
  intros Hd Hmode. unfold ShapeDrawer.onStartDrawing.
  unfold mbind, M_bind. rewrite (isDrawing_spec _ _ _ Hd).
  by rewrite bool_decide_eq_false_2.
Qed.

Lemma base_onStartDrawing_active (this : DrawerId) (w : World) (d : Drawer)
    (pt : Point) :
  drawers w !! this = Some d →
  activeDrawing (board w) = Some (drawType d) →
  pointer (board w) = Some pt →
  ShapeDrawer.onStartDrawing this w =
  Ret tt (with_drawers (<[this := with_startPoint (Some pt) d]> (drawers w)) w).
Proof.
  intros Hd Hmode Hp. unfold ShapeDrawer.onStartDrawing.
  unfold mbind, M_bind. rewrite (isDrawing_spec _ _ _ Hd).
  rewrite bool_decide_eq_true_2 by done. cbn.
  unfold Board.stage.getPointerPosition. unfold_m. rewrite Hp.
  destruct pt as [px py]. unfold modify. cbn.
  by rewrite (alter_lookup_Some _ _ _ _ Hd).
Qed.

Lemma base_onDrawing_spec (this : DrawerId) (w : World) (d : Drawer) :
  drawers w !! this = Some d →
  ShapeDrawer.onDrawing this w =
  Ret tt (if bool_decide (activeDrawing (board w) = Some (drawType d))
          then with_board (with_cursor "crosshair" (board w)) w else w).
Proof.
  intros Hd. unfold ShapeDrawer.onDrawing.
  unfold mbind, M_bind. rewrite (isDrawing_spec _ _ _ Hd).
  by case_bool_decide.
Qed.

(** ** Direct insertion *)

(** C4.  For every config, [insert(config)] on a pencil runs
    [stopDrawing()] and then the factory on the resulting state, and
    returns the created shape: a new [Konva.Line] built from [config],
    which is the reference appended to the board's committed shapes.  No
    draw mode is active afterwards (no drawer reports [isDrawing()]) and
    none of the drawer's listeners is registered. *)
Theorem insert_commits_shape (this : DrawerId) (config : Config) (w : World)
    (d : Drawer) (Hd : drawers w !! this = Some d) :
  ∃ w1 r w',
    ShapeDrawer.stopDrawing this w = Ret tt w1 ∧
    Pencil.createShape this config w1 = Ret r w' ∧
    Pencil.insert this config w = Ret r w' ∧
    heap w !! r = None ∧
    heap w' !! r = Some (Konva.new_Line config) ∧
    shapes (board w') = shapes (board w) ++ [r] ∧
    shapeOf this w' = Some r ∧
    activeDrawing (board w') = None ∧
    (∀ other d', drawers w' !! other = Some d' →
       ShapeDrawer.isDrawing other w' = Ret false w') ∧
    Forall (λ eh, eh ∉ stageListeners (board w')) (stageHandlers this) ∧
    Forall (λ eh, eh ∉ windowListeners w') (windowHandlers this).
Proof.
  pose proof (stopDrawing_spec this w) as Hstop.
  match type of Hstop with _ = Ret tt ?w0 => set (w1 := w0) in * end.
  assert (Hd1 : drawers w1 !! this = Some (with_shape None d)).
  { subst w1. cbn. by rewrite lookup_alter_eq, Hd. }
  pose proof (createShape_spec this config w1 _ Hd1) as Hc.
  eexists w1, _, _. split; [exact Hstop|]. split; [exact Hc|].
  split.
  { unfold Pencil.insert, ShapeDrawer.insert, mbind, M_bind.
    by rewrite Hstop. }
  subst w1. cbn. repeat split.
  - apply lookup_ge_None. lia.
  - by apply list_lookup_middle.
  - unfold shapeOf. cbn. by rewrite lookup_insert_eq.
  - intros other d' Hother.
    by rewrite (isDrawing_spec other _ d') by exact Hother.
  - apply removed_not_registered.
  - apply removed_not_registered.
Qed.

(** The direct insertion on a pencil that is in drawing mode. *)
Lemma insert_commits_shape_witness :
  ∃ w1 r w',
    ShapeDrawer.stopDrawing 0 w_pencil_drawing = Ret tt w1 ∧
    Pencil.createShape 0 circle_config w1 = Ret r w' ∧
    Pencil.insert 0 circle_config w_pencil_drawing = Ret r w' ∧
    heap w_pencil_drawing !! r = None ∧
    heap w' !! r = Some (Konva.new_Line circle_config) ∧
    shapes (board w') = shapes (board w_pencil_drawing) ++ [r] ∧
    shapeOf 0 w' = Some r ∧
    activeDrawing (board w') = None ∧
    (∀ other d', drawers w' !! other = Some d' →
       ShapeDrawer.isDrawing other w' = Ret false w') ∧
    Forall (λ eh, eh ∉ stageListeners (board w')) (stageHandlers 0) ∧
    Forall (λ eh, eh ∉ windowListeners w') (windowHandlers 0).
Proof.
  eapply (insert_commits_shape 0 circle_config w_pencil_drawing).
  reflexivity.
Defined.

(** ** The pencil's pointer handlers outside drawing mode *)

Lemma isDrawing_false_inv (this : DrawerId) (w : World) (d : Drawer) :
  drawers w !! this = Some d →
  ShapeDrawer.isDrawing this w = Ret false w →
  activeDrawing (board w) ≠ Some (drawType d).
Proof.
  intros Hd. rewrite (isDrawing_spec _ _ _ Hd). intros [= Hb].
  by apply bool_decide_eq_false in Hb.
Qed.

Lemma pencil_onDrawing_shape (this : DrawerId) (w : World) (d : Drawer)
    (r : ShapeRef) (ln : Konva.Line) (pt : Point) :
  drawers w !! this = Some d → shape d = Some r →
  heap w !! r = Some ln → pointer (board w) = Some pt →
  Pencil.onDrawing this w =
  Ret tt
    (mkWorld
       (mkBoard (activeDrawing (board w))
          (if bool_decide (activeDrawing (board w) = Some (drawType d))
           then "crosshair" else cursor (board w))
          (pointer (board w)) (stageListeners (board w)) (shapes (board w))
          (S (redraws (board w))))
       (windowListeners w)
       (<[r := Konva.set_points (Konva.points ln ++ [x pt; y pt]) ln]> (heap w))
       (drawers w)).
Proof.
  intros Hd Hs Hr Hp. unfold Pencil.onDrawing, mbind, M_bind.
  rewrite (base_onDrawing_spec _ _ _ Hd).
  unfold Board.stage.getPointerPosition, Board.draw. unfold_m.
  destruct w as [[a c p sl sh rd] wl h ds]. cbn in *.
  case_bool_decide; unfold_with;
    repeat (first [rewrite Hd | rewrite Hs | rewrite Hr | rewrite Hp]; cbn);
    reflexivity.
Qed.

(** C10.  When the pencil's pointer-down handler runs while [isDrawing()]
    is false, the base handler returns without touching the state (no
    anchor is captured), and the pencil creates a shape all the same: with
    no stored anchor the access throws a [TypeError]; with a stored anchor
    [pt] a new line, configured from that anchor and the draft config, is
    allocated, registered with the board and made the drawer's shape,
    while the stored anchor stays as it was. *)
Theorem pencil_onStartDrawing_unguarded (this : DrawerId) (w : World)
    (d : Drawer) (Hd : drawers w !! this = Some d)
    (Hidle : ShapeDrawer.isDrawing this w = Ret false w) :
  ShapeDrawer.onStartDrawing this w = Ret tt w ∧
  (startPoint d = None →
   Pencil.onStartDrawing this w = Throw TypeError w) ∧
  (∀ pt, startPoint d = Some pt →
   ∃ w', Pencil.onStartDrawing this w = Ret tt w' ∧
         heap w' = heap w ++ [Konva.new_Line (Pencil.seed (config d) pt)] ∧
         shapes (board w') = shapes (board w) ++ [length (heap w)] ∧
         drawers w' !! this = Some (with_shape (Some (length (heap w))) d) ∧
         (default ∅ (config d) !! "points" = None →
          Konva.points (Konva.new_Line (Pencil.seed (config d) pt))
          = [x pt; y pt])).
Proof.
  pose proof (isDrawing_false_inv _ _ _ Hd Hidle) as Hmode.
  pose proof (base_onStartDrawing_idle _ _ _ Hd Hmode) as Hbase.
  split; [exact Hbase|].
  unfold Pencil.onStartDrawing, mbind, M_bind. rewrite Hbase.
  unfold this_get. rewrite Hd. split.
  - by intros ->.
  - intros pt ->. rewrite Hd, (createShape_spec _ _ _ _ Hd).
    eexists. split; [reflexivity|]. cbn. repeat split.
    + by rewrite lookup_insert_eq.
    + intros Hnone. unfold Konva.points, Pencil.seed. cbn.
      rewrite lookup_union_r by exact Hnone.
      by rewrite lookup_insert_ne, lookup_singleton_eq.
Qed.

(** Pointer-down on a pencil out of mode: without an anchor, and with the
    anchor (3,4) of an earlier stroke while the pointer is at (7,8). *)
Lemma pencil_onStartDrawing_unguarded_witness :
  (ShapeDrawer.onStartDrawing 0 w_both_drawn = Ret tt w_both_drawn ∧
   Pencil.onStartDrawing 0 w_both_drawn = Throw TypeError w_both_drawn) ∧
  (pointer (board w_pencil_stale_anchor) = Some (mkPoint 7 8) ∧
   ∃ w', Pencil.onStartDrawing 0 w_pencil_stale_anchor = Ret tt w' ∧
         Konva.points <$> heap w' !! 1%nat = Some [3; 4] ∧
         shapes (board w') = [0; 1]%nat ∧
         (startPoint <$> drawers w' !! 0%nat) = Some (Some (mkPoint 3 4))).
Proof.
  split.
  - pose proof (pencil_onStartDrawing_unguarded 0 w_both_drawn
                  (mkDrawer (Some ∅) None DrawType.Pencil None)
                  eq_refl eq_refl) as (Hbase & Hthrow & _).
    split; [exact Hbase | exact (Hthrow eq_refl)].
  - split; [reflexivity|].
    pose proof (pencil_onStartDrawing_unguarded 0 w_pencil_stale_anchor
                  (mkDrawer (Some ∅) (Some (mkPoint 3 4)) DrawType.Pencil None)
                  eq_refl eq_refl) as (_ & _ & Hmake).
    destruct (Hmake (mkPoint 3 4) eq_refl) as (w' & Hrun & Hheap & Hshapes & Hdr & _).
    exists w'. split; [exact Hrun|].
    rewrite Hheap, Hshapes, Hdr. repeat split.
Defined.

(** C6 (as the code has it).  A pointer-move delivered to a pencil while
    [isDrawing()] is false: with a null shape reference the handler
    returns and the state is exactly as before; with a shape reference
    the guard passes and the pointer position is appended to that shape's
    points and one redraw is requested (the board's redraw count goes up
    by one), while the cursor, the committed shapes and every drawer's
    fields stay as they were; with a shape reference and no pointer
    position the handler throws a [TypeError]. *)
Theorem pencil_onDrawing_idle (this : DrawerId) (w : World) (d : Drawer)
    (Hd : drawers w !! this = Some d)
    (Hidle : ShapeDrawer.isDrawing this w = Ret false w) :
  (shape d = None → Pencil.onDrawing this w = Ret tt w) ∧
  (∀ r ln pt, shape d = Some r → heap w !! r = Some ln →
     pointer (board w) = Some pt →
     ∃ w', Pencil.onDrawing this w = Ret tt w' ∧
           cursor (board w') = cursor (board w) ∧
           shapes (board w') = shapes (board w) ∧
           drawers w' = drawers w ∧
           heap w' = <[r := Konva.set_points
                              (Konva.points ln ++ [x pt; y pt]) ln]> (heap w) ∧
           redraws (board w') = S (redraws (board w))) ∧
  (∀ r ln, shape d = Some r → heap w !! r = Some ln →
     pointer (board w) = None →
     Pencil.onDrawing this w = Throw TypeError w).
Proof.
  pose proof (isDrawing_false_inv _ _ _ Hd Hidle) as Hmode.
  assert (Hbase : ShapeDrawer.onDrawing this w = Ret tt w).
  { rewrite (base_onDrawing_spec _ _ _ Hd).
    by rewrite bool_decide_eq_false_2. }
  repeat split.
  - intros Hs. unfold Pencil.onDrawing, mbind, M_bind. rewrite Hbase.
    unfold this_get. by rewrite Hd, Hs.
  - intros r ln pt Hs Hr Hp.
    rewrite (pencil_onDrawing_shape _ _ _ _ _ _ Hd Hs Hr Hp).
    eexists. split; [reflexivity|]. cbn.
    by rewrite bool_decide_eq_false_2.
  - intros r ln Hs Hr Hp. unfold Pencil.onDrawing, mbind, M_bind.
    rewrite Hbase. unfold this_get, Board.stage.getPointerPosition, gets, deref.
    by rewrite Hd, Hs, Hp, Hr.
Qed.

(** Pointer-move on a pencil out of mode: without a shape, and with the
    shape started at (0,0) while the pointer is at (5,5). *)
Lemma pencil_onDrawing_idle_witness :
  Pencil.onDrawing 0 w_pencil_stale_anchor = Ret tt w_pencil_stale_anchor ∧
  ∃ w', Pencil.onDrawing 0 w_pencil_stale_shape = Ret tt w' ∧
        cursor (board w') = cursor (board w_pencil_stale_shape) ∧
        shapes (board w') = shapes (board w_pencil_stale_shape) ∧
        Konva.points <$> heap w' !! 0%nat = Some [0; 0; 5; 5] ∧
        redraws (board w') = S (redraws (board w_pencil_stale_shape)).
Proof.
  split.
  - refine (proj1 (pencil_onDrawing_idle 0 w_pencil_stale_anchor
                     (mkDrawer (Some ∅) (Some (mkPoint 3 4)) DrawType.Pencil None)
                     eq_refl eq_refl) eq_refl).
  - pose proof (pencil_onDrawing_idle 0 w_pencil_stale_shape
                  (mkDrawer (Some ∅) (Some (mkPoint 0 0)) DrawType.Pencil (Some 0%nat))
                  eq_refl eq_refl) as (_ & Happend & _).
    destruct (Happend 0%nat (Konva.new_Line (Pencil.seed (Some ∅) (mkPoint 0 0)))
                (mkPoint 5 5) eq_refl eq_refl eq_refl)
      as (w' & Hrun & Hcur & Hshapes & _ & Hheap & Hredraw).
    exists w'. split; [exact Hrun|]. split; [exact Hcur|].
    split; [exact Hshapes|]. split; [|exact Hredraw].
    rewrite Hheap. reflexivity.
Defined.

(** C6 as stated fails: the pencil is not in drawing mode and still holds
    the shape it started; the pointer-move at (5,5) is not ignored, it
    appends (5,5) to the points of that committed shape. *)
Lemma pencil_onDrawing_idle_not_ignored :
  ShapeDrawer.isDrawing 0 w_pencil_stale_shape = Ret false w_pencil_stale_shape ∧
  shapeOf 0 w_pencil_stale_shape = Some 0%nat ∧
  shapes (board w_pencil_stale_shape) = [0%nat] ∧
  Konva.points <$> heap w_pencil_stale_shape !! 0%nat = Some [0; 0] ∧
  Konva.points <$> heap (world_of (Pencil.onDrawing 0 w_pencil_stale_shape)) !! 0%nat
  = Some [0; 0; 5; 5] ∧
  heap (world_of (Pencil.onDrawing 0 w_pencil_stale_shape))
  ≠ heap w_pencil_stale_shape.
Proof. vm_compute. repeat split. discriminate. Qed.

(** ** Freehand strokes *)

Lemma pencil_onStartDrawing_active (this : DrawerId) (w : World) (d : Drawer)
    (pt : Point) :
  drawers w !! this = Some d →
  activeDrawing (board w) = Some (drawType d) →
  pointer (board w) = Some pt →
  Pencil.onStartDrawing this w =
  Ret tt
    (mkWorld (with_shapes (shapes (board w) ++ [length (heap w)]) (board w))
       (windowListeners w)
       (heap w ++ [Konva.new_Line (Pencil.seed (config d) pt)])
       (<[this := mkDrawer (config d) (Some pt) (drawType d)
                    (Some (length (heap w)))]> (drawers w))).
Proof.
  intros Hd Hmode Hp. unfold Pencil.onStartDrawing, mbind, M_bind.
  rewrite (base_onStartDrawing_active _ _ _ _ Hd Hmode Hp).
  unfold this_get. cbn. rewrite lookup_insert_eq. cbn.
  rewrite lookup_insert_eq.
  erewrite createShape_spec by apply lookup_insert_eq.
  cbn. by rewrite insert_insert_eq.
Qed.

Lemma points_set_points (ps : list Z) (ln : Konva.Line) :
  Konva.points (Konva.set_points ps ln) = ps.
Proof. unfold Konva.points, Konva.set_points. cbn. by rewrite lookup_insert_eq. Qed.

Lemma pointerAt_move (this : DrawerId) (w : World) (d : Drawer)
    (r : ShapeRef) (ln : Konva.Line) (p : Point) :
  drawers w !! this = Some d → shape d = Some r → heap w !! r = Some ln →
  ∃ w', (pointerAt p;; Pencil.onDrawing this) w = Ret tt w' ∧
        drawers w' = drawers w ∧
        shapes (board w') = shapes (board w) ∧
        heap w' = <[r := Konva.set_points (Konva.points ln ++ [x p; y p]) ln]> (heap w) ∧
        heap w' !! r
        = Some (Konva.set_points (Konva.points ln ++ [x p; y p]) ln).
Proof.
  intros Hd Hs Hr. unfold mbind, M_bind, pointerAt, Board.upd, modify.
  erewrite pencil_onDrawing_shape; [|exact Hd|exact Hs|exact Hr|reflexivity].
  eexists. split; [reflexivity|]. cbn. repeat split.
  apply list_lookup_insert_eq. by eapply lookup_lt_Some.
Qed.

Lemma moves_spec (this : DrawerId) (ps : list Point) :
  ∀ (w : World) (d : Drawer) (r : ShapeRef) (ln : Konva.Line),
    drawers w !! this = Some d → shape d = Some r → heap w !! r = Some ln →
    ∃ w' ln', moves this ps w = Ret tt w' ∧
              drawers w' = drawers w ∧
              shapes (board w') = shapes (board w) ∧
              heap w' !! r = Some ln' ∧
              Konva.points ln' = Konva.points ln ++ coords ps.
Proof.
  induction ps as [|p ps IH]; intros w d r ln Hd Hs Hr.
  - exists w, ln. cbn. by rewrite app_nil_r.
  - destruct (pointerAt_move this w d r ln p Hd Hs Hr)
      as (w1 & Hrun & Hdr & Hsh & _ & Hr1).
    rewrite <- Hdr in Hd.
    destruct (IH w1 d r _ Hd Hs Hr1) as (w' & ln' & Hrest & Hdr' & Hsh' & Hr' & Hpts).
    exists w', ln'. repeat split.
    + cbn [moves]. unfold mbind, M_bind in *.
      destruct (pointerAt p w) as [[] w0|]; [|discriminate].
      by rewrite Hrun.
    + congruence.
    + congruence.
    + exact Hr'.
    + rewrite Hpts, points_set_points, <- app_assoc. reflexivity.
Qed.

(** C5.  A pencil stroke with a draft config that sets no points: after
    [draw], a pointer-down at [p0] and pointer-moves at [ps], the
    in-progress shape is the shape committed to the board by the
    pointer-down, and its points are the coordinates of [p0] followed by
    those of [ps], in order.  One more pointer-move at [p] returns and
    leaves the points so far with the coordinates of [p] added at the end. *)
Theorem pencil_stroke_points (this : DrawerId) (w : World) (d : Drawer)
    (cfg : Config) (p0 : Point) (ps : list Point)
    (Hd : drawers w !! this = Some d) (Hcfg : cfg !! "points" = None) :
  ∃ w' r ln,
    stroke this cfg p0 ps w = Ret tt w' ∧
    shapeOf this w' = Some r ∧
    heap w' !! r = Some ln ∧
    shapes (board w') = shapes (board w) ++ [r] ∧
    Konva.points ln = [x p0; y p0] ++ coords ps ∧
    ∀ p, ∃ w'' ln',
      (pointerAt p;; Pencil.onDrawing this) w' = Ret tt w'' ∧
      shapeOf this w'' = Some r ∧
      heap w'' !! r = Some ln' ∧
      Konva.points ln' = Konva.points ln ++ [x p; y p].
Proof.
  unfold stroke, Pencil.draw, mbind, M_bind.
  rewrite (draw_spec _ _ _ _ Hd).
  unfold pointerAt at 1. unfold Board.upd, modify.
  erewrite pencil_onStartDrawing_active;
    [|apply lookup_insert_eq|reflexivity|reflexivity].
  cbn.
  set (r := length (heap w)).
  set (d1 := mkDrawer (Some cfg) (Some p0) (drawType d) (Some r)).
  set (ln0 := Konva.new_Line (Pencil.seed (Some cfg) p0)).
  match goal with |- context [moves this ps ?w0] => set (w1 := w0) end.
  assert (Hd1 : drawers w1 !! this = Some d1).
  { subst w1. cbn. by rewrite insert_insert_eq, lookup_insert_eq. }
  assert (Hr1 : heap w1 !! r = Some ln0) by by apply list_lookup_middle.
  destruct (moves_spec this ps w1 d1 r ln0 Hd1 eq_refl Hr1)
    as (w' & ln' & Hrun & Hdr & Hsh & Hr' & Hpts).
  assert (Hseed : Konva.points ln0 = [x p0; y p0]).
  { subst ln0. unfold Konva.points, Pencil.seed. cbn.
    rewrite lookup_union_r by exact Hcfg.
    by rewrite lookup_insert_ne, lookup_singleton_eq. }
  rewrite <- Hdr in Hd1.
  exists w', r, ln'. rewrite Hrun. repeat split.
  - unfold shapeOf. by rewrite Hd1.
  - exact Hr'.
  - by rewrite Hsh.
  - by rewrite Hpts, Hseed.
  - intros p.
    destruct (pointerAt_move this w' d1 r ln' p Hd1 eq_refl Hr')
      as (w'' & Hmove & Hdr'' & _ & _ & Hr'').
    eexists w'', _. split; [exact Hmove|]. repeat split.
    + unfold shapeOf. by rewrite Hdr'', Hd1.
    + exact Hr''.
    + apply points_set_points.
Qed.

(** The stroke (0,0), (1,1), (2,2) with an empty draft config. *)
Lemma pencil_stroke_points_witness :
  ∃ w' r ln,
    stroke 0 ∅ (mkPoint 0 0) [mkPoint 1 1; mkPoint 2 2] w_pencil_new = Ret tt w' ∧
    shapeOf 0 w' = Some r ∧
    heap w' !! r = Some ln ∧
    shapes (board w') = shapes (board w_pencil_new) ++ [r] ∧
    Konva.points ln = [0; 0; 1; 1; 2; 2] ∧
    ∀ p, ∃ w'' ln',
      (pointerAt p;; Pencil.onDrawing 0) w' = Ret tt w'' ∧
      shapeOf 0 w'' = Some r ∧
      heap w'' !! r = Some ln' ∧
      Konva.points ln' = Konva.points ln ++ [x p; y p].
Proof.
  exact (pencil_stroke_points 0 w_pencil_new
           (mkDrawer None None DrawType.Pencil None) ∅
           (mkPoint 0 0) [mkPoint 1 1; mkPoint 2 2] eq_refl eq_refl).
Defined.

(** ** Exclusivity between drawers *)

Lemma filter_none {A} (P : A → Prop) `{!∀ a, Decision (P a)} (l : list A) :
  Forall (λ a, ¬ P a) l → filter P l = [].
Proof.
  induction 1 as [|a l Ha _ IH]; [done|].
  by rewrite filter_cons_False.
Qed.

Lemma stageHandlers_NoDup (this : DrawerId) : NoDup (stageHandlers this).
Proof.
  unfold stageHandlers.
  repeat (apply NoDup_cons; split;
    [rewrite ?elem_of_cons, ?elem_of_nil; intros H;
     repeat (destruct H as [H|H]; [discriminate H|]); done|]).
  apply NoDup_nil_2.
Qed.

Lemma windowHandlers_NoDup (this : DrawerId) : NoDup (windowHandlers this).
Proof.
  unfold windowHandlers.
  repeat (apply NoDup_cons; split;
    [rewrite ?elem_of_cons, ?elem_of_nil; intros H;
     repeat (destruct H as [H|H]; [discriminate H|]); done|]).
  apply NoDup_nil_2.
Qed.

Lemma filter_eq_once {A} `{!EqDecision A} (l : list A) (a : A) :
  NoDup l → a ∈ l → filter (λ b, b = a) l = [a].
Proof.
  induction 1 as [|b l Hb Hl IH]; intros Hin.
  - by apply elem_of_nil in Hin.
  - apply elem_of_cons in Hin as [->|Hin].
    + rewrite filter_cons_True by done. f_equal.
      apply filter_none, Forall_forall. intros c Hc ->. done.
    + rewrite filter_cons_False by (intros ->; done). by apply IH.
Qed.

(** After the listeners [hs] were removed from a table and added again,
    each of them is in the table exactly once. *)
Lemma readded_once (hs l : Listeners) :
  NoDup hs →
  Forall (λ eh, filter (λ x, x = eh) (filter (λ x, x ∉ hs) l ++ hs) = [eh]) hs.
Proof.
  intros Hnd. apply Forall_forall. intros eh Hin.
  rewrite filter_app, (filter_none _ (filter _ l)), app_nil_l.
  - by apply filter_eq_once.
  - apply Forall_forall. intros x Hx ->.
    by apply list_elem_of_filter in Hx as [Hn _].
Qed.

Lemma listenersOf_draw_other (a b : DrawerId) (sl wl : Listeners) :
  a ≠ b →
  filter (λ eh, eh.2.1 = a)
    ((filter (λ eh, eh ∉ stageHandlers b) sl ++ stageHandlers b)
       ++ (filter (λ eh, eh ∉ windowHandlers b) wl ++ windowHandlers b))
  = filter (λ eh, eh.2.1 = a) (sl ++ wl).
Proof.
  intros Hne. rewrite !filter_app.
  rewrite (filter_other_owner b a stageHandlers),
          (filter_other_owner b a windowHandlers);
    auto using stageHandlers_owner, windowHandlers_owner.
  rewrite (filter_none _ (stageHandlers b)), (filter_none _ (windowHandlers b)).
  - by rewrite !app_nil_r.
  - apply Forall_forall. intros eh Hin Heq.
    apply windowHandlers_owner in Hin. congruence.
  - apply Forall_forall. intros eh Hin Heq.
    apply stageHandlers_owner in Hin. congruence.
Qed.

(** C1 (as the code has it).  For two drawers A and B with distinct draw
    types, [B.draw(config)] returns and makes B's type the board's active
    draw mode: afterwards [A.isDrawing()] is false and [B.isDrawing()] is
    true, and the base pointer-down and pointer-move handlers of A, which
    test [isDrawing()], leave the state as it is.  [B.draw()] removes only
    B's own listeners before it registers them again: each table is the
    table before the call without B's listeners, followed by B's
    listeners, so each of these is registered exactly once whatever the
    tables held; the fields of A and the listeners of A on the stage and
    on the window are as before. *)
Theorem draw_takes_over_mode (a b : DrawerId) (config : Config) (w : World)
    (da db : Drawer)
    (Ha : drawers w !! a = Some da) (Hb : drawers w !! b = Some db)
    (Htypes : drawType da ≠ drawType db) :
  ∃ w', ShapeDrawer.draw b config w = Ret tt w' ∧
        activeDrawing (board w') = Some (drawType db) ∧
        ShapeDrawer.isDrawing a w' = Ret false w' ∧
        ShapeDrawer.isDrawing b w' = Ret true w' ∧
        ShapeDrawer.onStartDrawing a w' = Ret tt w' ∧
        ShapeDrawer.onDrawing a w' = Ret tt w' ∧
        drawers w' !! a = Some da ∧
        listenersOf a w' = listenersOf a w ∧
        Forall (λ eh, eh ∈ stageListeners (board w')) (stageHandlers b) ∧
        Forall (λ eh, eh ∈ windowListeners w') (windowHandlers b) ∧
        stageListeners (board w')
        = filter (λ eh, eh ∉ stageHandlers b) (stageListeners (board w))
            ++ stageHandlers b ∧
        windowListeners w'
        = filter (λ eh, eh ∉ windowHandlers b) (windowListeners w)
            ++ windowHandlers b ∧
        Forall (λ eh, filter (λ x, x = eh) (stageListeners (board w')) = [eh])
               (stageHandlers b) ∧
        Forall (λ eh, filter (λ x, x = eh) (windowListeners w') = [eh])
               (windowHandlers b).
Proof.
  assert (Hne : a ≠ b) by (intros ->; congruence).
  rewrite (draw_spec _ _ _ _ Hb).
  eexists. split; [reflexivity|].
  match goal with |- context [ShapeDrawer.isDrawing a ?w0] => set (w' := w0) end.
  assert (Ha' : drawers w' !! a = Some da).
  { subst w'. cbn. by rewrite lookup_insert_ne. }
  assert (Hb' : drawers w' !! b
                = Some (mkDrawer (Some config) (startPoint db) (drawType db) None)).
  { subst w'. cbn. by rewrite lookup_insert_eq. }
  assert (Hmode : activeDrawing (board w') ≠ Some (drawType da)).
  { subst w'. cbn. congruence. }
  repeat split.
  - rewrite (isDrawing_spec _ _ _ Ha'). by rewrite bool_decide_eq_false_2.
  - rewrite (isDrawing_spec _ _ _ Hb'). by rewrite bool_decide_eq_true_2.
  - by apply (base_onStartDrawing_idle a w' da).
  - rewrite (base_onDrawing_spec _ _ _ Ha'). by rewrite bool_decide_eq_false_2.
  - exact Ha'.
  - unfold listenersOf. subst w'. cbn. by apply listenersOf_draw_other.
  - apply Forall_forall. intros eh Hin. subst w'. cbn.
    apply elem_of_app. by right.
  - apply Forall_forall. intros eh Hin. subst w'. cbn.
    apply elem_of_app. by right.
  - subst w'. cbn [board stageListeners].
    apply readded_once, stageHandlers_NoDup.
  - subst w'. cbn [windowListeners].
    apply readded_once, windowHandlers_NoDup.
Qed.

(** The line drawer's [draw] while the pencil is in drawing mode. *)
Lemma draw_takes_over_mode_witness :
  ShapeDrawer.isDrawing 0 w_pencil_midstroke = Ret true w_pencil_midstroke ∧
  ∃ w', ShapeDrawer.draw 1 ∅ w_pencil_midstroke = Ret tt w' ∧
        activeDrawing (board w') = Some DrawType.Line ∧
        ShapeDrawer.isDrawing 0 w' = Ret false w' ∧
        ShapeDrawer.isDrawing 1 w' = Ret true w' ∧
        ShapeDrawer.onStartDrawing 0 w' = Ret tt w' ∧
        ShapeDrawer.onDrawing 0 w' = Ret tt w' ∧
        drawers w' !! 0%nat
        = Some (mkDrawer (Some ∅) (Some (mkPoint 0 0)) DrawType.Pencil (Some 0%nat)) ∧
        listenersOf 0 w' = listenersOf 0 w_pencil_midstroke ∧
        Forall (λ eh, eh ∈ stageListeners (board w')) (stageHandlers 1) ∧
        Forall (λ eh, eh ∈ windowListeners w') (windowHandlers 1) ∧
        stageListeners (board w')
        = filter (λ eh, eh ∉ stageHandlers 1)
            (stageListeners (board w_pencil_midstroke)) ++ stageHandlers 1 ∧
        windowListeners w'
        = filter (λ eh, eh ∉ windowHandlers 1)
            (windowListeners w_pencil_midstroke) ++ windowHandlers 1 ∧
        Forall (λ eh, filter (λ x, x = eh) (stageListeners (board w')) = [eh])
               (stageHandlers 1) ∧
        Forall (λ eh, filter (λ x, x = eh) (windowListeners w') = [eh])
               (windowHandlers 1).
Proof.
  split; [reflexivity|].
  exact (draw_takes_over_mode 0 1 ∅ w_pencil_midstroke
           (mkDrawer (Some ∅) (Some (mkPoint 0 0)) DrawType.Pencil (Some 0%nat))
           (mkDrawer None None DrawType.Line None)
           eq_refl eq_refl ltac:(discriminate)).
Defined.

(** C1 as stated fails: the pencil is in drawing mode with a shape in
    progress when [draw] is called on the line drawer.  Afterwards the
    pencil reports [isDrawing()] false, but its nine listeners are all
    still registered, and the pointer-move at (5,5) routed to its handler
    extends the shape it holds. *)
Lemma draw_leaves_other_listeners :
  ShapeDrawer.isDrawing 0 w_pencil_midstroke = Ret true w_pencil_midstroke ∧
  listenersOf 0 w_pencil_midstroke = stageHandlers 0 ++ windowHandlers 0 ∧
  let w' := world_of (ShapeDrawer.draw 1 ∅ w_pencil_midstroke) in
  ShapeDrawer.isDrawing 0 w' = Ret false w' ∧
  listenersOf 0 w' = stageHandlers 0 ++ windowHandlers 0 ∧
  listenersOf 0 w' ≠ [] ∧
  Konva.points <$> heap w' !! 0%nat = Some [0; 0] ∧
  Konva.points <$>
    heap (world_of ((pointerAt (mkPoint 5 5);; Pencil.onDrawing 0) w')) !! 0%nat
  = Some [0; 0; 5; 5].
Proof. vm_compute. repeat split. discriminate. Qed.


(** * Further properties of the drawers *)

(** ** Entering drawing mode again *)

(** Re-adding a drawer's listeners to a table from which they were
    removed. *)
Lemma readd_handlers (hs l : Listeners) :
  filter (λ eh, eh ∉ hs) (filter (λ eh, eh ∉ hs) l ++ hs)
  = filter (λ eh, eh ∉ hs) l.
Proof.
  rewrite filter_app, filter_twice, (filter_none _ hs), app_nil_r; [done|].
  apply Forall_forall. intros eh Hin Hn. done.
Qed.

Lemma draw_missing (this : DrawerId) (cfg : Config) (w : World) :
  drawers w !! this = None →
  ShapeDrawer.draw this cfg w
  = Throw NoSuchObject (world_of (ShapeDrawer.stopDrawing this w)).
Proof.
  intros Hd. unfold ShapeDrawer.draw, mbind, M_bind.
  unfold this_set at 1. unfold modify. rewrite !stopDrawing_spec.
  unfold this_get. cbn.
  rewrite !lookup_alter_eq, Hd. cbn. do 2 f_equal.
  apply map_eq. intros i. destruct (decide (i = this)) as [->|Hne].
  - by rewrite !lookup_alter_eq, Hd.
  - by rewrite !lookup_alter_ne.
Qed.

(** X1.  Calling [draw] again on the same drawer has no cumulative
    effect: two calls in a row leave exactly the state (or raise exactly
    the error) of the second call alone. *)
Theorem draw_again (this : DrawerId) (c1 c2 : Config) (w : World) :
  (ShapeDrawer.draw this c1;; ShapeDrawer.draw this c2) w
  = ShapeDrawer.draw this c2 w.
Proof.
  unfold mbind, M_bind.
  destruct (drawers w !! this) as [d|] eqn:Hd.
  - rewrite (draw_spec _ c1 _ _ Hd).
    erewrite (draw_spec _ c2) by apply lookup_insert_eq.
    rewrite (draw_spec _ c2 _ _ Hd). cbn.
    by rewrite !readd_handlers, insert_insert_eq.
  - by rewrite !draw_missing.
Qed.

(** X2.  After [draw], each of the six stage listeners and of the three
    window listeners of the drawer is registered exactly once, whatever
    the tables held before the call. *)
Theorem draw_registers_once (this : DrawerId) (cfg : Config) (w : World)
    (d : Drawer) (Hd : drawers w !! this = Some d) :
  ∃ w', ShapeDrawer.draw this cfg w = Ret tt w' ∧
        Forall (λ eh, filter (λ x, x = eh) (stageListeners (board w')) = [eh])
               (stageHandlers this) ∧
        Forall (λ eh, filter (λ x, x = eh) (windowListeners w') = [eh])
               (windowHandlers this).
Proof.
  rewrite (draw_spec _ _ _ _ Hd). eexists. split; [reflexivity|].
  cbn [board stageListeners windowListeners].
  assert (Hgone : ∀ (hs l : Listeners) eh, eh ∈ hs →
            filter (λ x, x = eh) (filter (λ x, x ∉ hs) l) = []).
  { intros hs l eh Hin. apply filter_none, Forall_forall.
    intros x Hx ->. by apply list_elem_of_filter in Hx as [Hn _]. }
  split; apply Forall_forall; intros eh Hin;
    rewrite filter_app, Hgone, app_nil_l by done;
    apply filter_eq_once;
    auto using stageHandlers_NoDup, windowHandlers_NoDup.
Qed.

(** The line drawer enters drawing mode on a board whose tables already
    hold its listeners from an earlier [draw]. *)
Lemma draw_registers_once_witness :
  ∃ w', ShapeDrawer.draw 1 ∅ w_both_drawn = Ret tt w' ∧
        Forall (λ eh, filter (λ x, x = eh) (stageListeners (board w')) = [eh])
               (stageHandlers 1) ∧
        Forall (λ eh, filter (λ x, x = eh) (windowListeners w') = [eh])
               (windowHandlers 1).
Proof.
  exact (draw_registers_once 1 ∅ w_both_drawn
           (mkDrawer (Some ∅) None DrawType.Line None) eq_refl).
Defined.

(** X3.  [draw] followed by [stopDrawing] on the same drawer gives the
    state that [stopDrawing] alone gives, except that the drawer keeps
    the config passed to [draw]. *)
Theorem draw_then_stopDrawing (this : DrawerId) (cfg : Config) (w : World)
    (d : Drawer) (Hd : drawers w !! this = Some d) :
  ∃ w1 w2,
    ShapeDrawer.stopDrawing this w = Ret tt w1 ∧
    (ShapeDrawer.draw this cfg;; ShapeDrawer.stopDrawing this) w = Ret tt w2 ∧
    w2 = with_drawers (alter (with_config (Some cfg)) this (drawers w1)) w1.
Proof.
  unfold mbind, M_bind. rewrite (draw_spec _ _ _ _ Hd), !stopDrawing_spec.
  eexists _, _. split; [reflexivity|]. split; [reflexivity|].
  unfold with_drawers. cbn. rewrite !readd_handlers. f_equal.
  apply map_eq. intros i. destruct (decide (i = this)) as [->|Hne].
  - by rewrite !lookup_alter_eq, lookup_insert_eq, Hd.
  - by rewrite !lookup_alter_ne, lookup_insert_ne.
Qed.

(** [draw] then [stopDrawing] on the pencil that was already drawing. *)
Lemma draw_then_stopDrawing_witness :
  ∃ w1 w2,
    ShapeDrawer.stopDrawing 0 w_pencil_midstroke = Ret tt w1 ∧
    (ShapeDrawer.draw 0 circle_config;; ShapeDrawer.stopDrawing 0)
      w_pencil_midstroke = Ret tt w2 ∧
    w2 = with_drawers (alter (with_config (Some circle_config)) 0%nat
                         (drawers w1)) w1.
Proof.
  exact (draw_then_stopDrawing 0 circle_config w_pencil_midstroke
           (mkDrawer (Some ∅) (Some (mkPoint 0 0)) DrawType.Pencil (Some 0%nat))
           eq_refl).
Defined.

(** ** Strokes in detail *)

Lemma attrs_set_points (ps : list Z) (ln : Konva.Line) (k : string) :
  k ≠ "points" → Konva.attrs (Konva.set_points ps ln) !! k = Konva.attrs ln !! k.
Proof. intros Hk. unfold Konva.set_points. cbn. by rewrite lookup_insert_ne. Qed.

(** What a run of pointer-moves changes: the line of the drawer's shape
    (its points grow), the pointer, the cursor and the redraw count. *)
Lemma moves_frame (this : DrawerId) (ps : list Point) :
  ∀ (w : World) (d : Drawer) (r : ShapeRef) (ln : Konva.Line),
    drawers w !! this = Some d → shape d = Some r → heap w !! r = Some ln →
    ∃ w' ln', moves this ps w = Ret tt w' ∧
              drawers w' = drawers w ∧
              activeDrawing (board w') = activeDrawing (board w) ∧
              stageListeners (board w') = stageListeners (board w) ∧
              windowListeners w' = windowListeners w ∧
              shapes (board w') = shapes (board w) ∧
              heap w' = <[r := ln']> (heap w) ∧
              Konva.points ln' = Konva.points ln ++ coords ps ∧
              ∀ k, k ≠ "points" → Konva.attrs ln' !! k = Konva.attrs ln !! k.
Proof.
  induction ps as [|p ps IH]; intros w d r ln Hd Hs Hr.
  - exists w, ln. cbn. rewrite app_nil_r, list_insert_id by done. by repeat split.
  - assert (Hstep : (pointerAt p;; Pencil.onDrawing this) w
              = Ret tt
                  (mkWorld
                     (mkBoard (activeDrawing (board w))
                        (if bool_decide (activeDrawing (board w) = Some (drawType d))
                         then "crosshair" else cursor (board w))
                        (Some p) (stageListeners (board w)) (shapes (board w))
                        (S (redraws (board w))))
                     (windowListeners w)
                     (<[r := Konva.set_points (Konva.points ln ++ [x p; y p]) ln]>
                        (heap w))
                     (drawers w))).
    { unfold mbind, M_bind, pointerAt, Board.upd, modify.
      erewrite pencil_onDrawing_shape; [|exact Hd|exact Hs|exact Hr|reflexivity].
      reflexivity. }
    match type of Hstep with _ = Ret tt ?w0 => set (w1 := w0) in * end.
    set (ln1 := Konva.set_points (Konva.points ln ++ [x p; y p]) ln) in *.
    assert (Hr1 : heap w1 !! r = Some ln1).
    { subst w1. cbn. apply list_lookup_insert_eq. by eapply lookup_lt_Some. }
    destruct (IH w1 d r ln1 Hd Hs Hr1)
      as (w' & ln' & Hrest & Hdr & Hmode & Hst & Hwi & Hsh & Hheap & Hpts & Hattrs).
    exists w', ln'. split.
    { cbn [moves]. unfold mbind, M_bind in *.
      destruct (pointerAt p w) as [[] w0|]; [|discriminate].
      by rewrite Hstep. }
    repeat split; try done.
    + rewrite Hheap. subst w1. cbn. apply list_insert_insert_eq.
    + rewrite Hpts. subst ln1. rewrite points_set_points, <- app_assoc. done.
    + intros k Hk. rewrite Hattrs by done. subst ln1.
      by apply attrs_set_points.
Qed.

(** The state after a stroke, field by field. *)
Lemma stroke_spec (this : DrawerId) (cfg : Config) (p0 : Point)
    (ps : list Point) (w : World) (d : Drawer) :
  drawers w !! this = Some d →
  ∃ w' ln,
    stroke this cfg p0 ps w = Ret tt w' ∧
    drawers w' = <[this := mkDrawer (Some cfg) (Some p0) (drawType d)
                            (Some (length (heap w)))]> (drawers w) ∧
    activeDrawing (board w') = Some (drawType d) ∧
    stageListeners (board w')
    = filter (λ eh, eh ∉ stageHandlers this) (stageListeners (board w))
        ++ stageHandlers this ∧
    windowListeners w'
    = filter (λ eh, eh ∉ windowHandlers this) (windowListeners w)
        ++ windowHandlers this ∧
    shapes (board w') = shapes (board w) ++ [length (heap w)] ∧
    heap w' = heap w ++ [ln] ∧
    Konva.points ln
    = Konva.points (Konva.new_Line (Pencil.seed (Some cfg) p0)) ++ coords ps ∧
    ∀ k, k ≠ "points" → Konva.attrs ln !! k = Pencil.seed (Some cfg) p0 !! k.
Proof.
  intros Hd. unfold stroke, Pencil.draw, mbind, M_bind.
  rewrite (draw_spec _ _ _ _ Hd).
  unfold pointerAt at 1. unfold Board.upd, modify.
  erewrite pencil_onStartDrawing_active;
    [|apply lookup_insert_eq|reflexivity|reflexivity].
  cbn.
  set (r := length (heap w)).
  set (d1 := mkDrawer (Some cfg) (Some p0) (drawType d) (Some r)).
  set (ln0 := Konva.new_Line (Pencil.seed (Some cfg) p0)).
  match goal with |- context [moves this ps ?w0] => set (w1 := w0) end.
  assert (Hd1 : drawers w1 !! this = Some d1).
  { subst w1. cbn. by rewrite insert_insert_eq, lookup_insert_eq. }
  assert (Hr1 : heap w1 !! r = Some ln0) by by apply list_lookup_middle.
  destruct (moves_frame this ps w1 d1 r ln0 Hd1 eq_refl Hr1)
    as (w' & ln' & Hrun & Hdr & Hmode & Hst & Hwi & Hsh & Hheap & Hpts & Hattrs).
  exists w', ln'. rewrite Hrun. split; [done|].
  rewrite Hdr, Hmode, Hst, Hwi, Hsh, Hheap. subst w1. cbn.
  repeat split; try done.
  - by rewrite insert_insert_eq.
  - subst r. rewrite insert_app_r_alt, Nat.sub_diag by lia. done.
Qed.

Lemma isDrawing_true_inv (this : DrawerId) (w : World) (d : Drawer) :
  drawers w !! this = Some d →
  ShapeDrawer.isDrawing this w = Ret true w →
  activeDrawing (board w) = Some (drawType d).
Proof.
  intros Hd. rewrite (isDrawing_spec _ _ _ Hd). intros [= Hb].
  by apply bool_decide_eq_true in Hb.
Qed.

(** X4.  Pointer-down on a pencil in drawing mode.  Without a pointer
    position the handler throws a [TypeError] before anything changes: no
    anchor is stored and no shape is created.  With a position [pt] the
    anchor becomes [pt] and a new line, configured from [pt] and the draft
    config, is allocated, committed to the board and made the drawer's
    shape; a shape that was in progress stays on the board untouched, and
    the other drawers are as before. *)
Theorem pencil_onStartDrawing_drawing (this : DrawerId) (w : World)
    (d : Drawer) (Hd : drawers w !! this = Some d)
    (Hmode : ShapeDrawer.isDrawing this w = Ret true w) :
  (pointer (board w) = None →
   Pencil.onStartDrawing this w = Throw TypeError w) ∧
  (∀ pt, pointer (board w) = Some pt →
   ∃ w', Pencil.onStartDrawing this w = Ret tt w' ∧
         drawers w' !! this
         = Some (mkDrawer (config d) (Some pt) (drawType d)
                   (Some (length (heap w)))) ∧
         heap w' = heap w ++ [Konva.new_Line (Pencil.seed (config d) pt)] ∧
         shapes (board w') = shapes (board w) ++ [length (heap w)] ∧
         ∀ other, other ≠ this → drawers w' !! other = drawers w !! other).
Proof.
  pose proof (isDrawing_true_inv _ _ _ Hd Hmode) as Hactive. split.
  - intros Hp. unfold Pencil.onStartDrawing, ShapeDrawer.onStartDrawing,
      mbind, M_bind.
    rewrite (isDrawing_spec _ _ _ Hd), bool_decide_eq_true_2 by done. cbn.
    unfold Board.stage.getPointerPosition, gets. by rewrite Hp.
  - intros pt Hp.
    rewrite (pencil_onStartDrawing_active _ _ _ _ Hd Hactive Hp).
    eexists. split; [reflexivity|]. cbn. repeat split.
    + by rewrite lookup_insert_eq.
    + intros other Hne. by rewrite lookup_insert_ne.
Qed.

(** Pointer-down on the pencil that already holds the shape started at
    (0,0), with the pointer at (6,6); and on a pencil in drawing mode on a
    stage that reports no pointer position. *)
Lemma pencil_onStartDrawing_drawing_witness :
  Pencil.onStartDrawing 0 w_pencil_drawing = Throw TypeError w_pencil_drawing ∧
  ∃ w', Pencil.onStartDrawing 0 w_pencil_second_down = Ret tt w' ∧
        shapeOf 0 w' = Some 1%nat ∧
        Konva.points <$> heap w' !! 0%nat = Some [0; 0] ∧
        Konva.points <$> heap w' !! 1%nat = Some [6; 6] ∧
        shapes (board w') = [0; 1]%nat.
Proof.
  split.
  - exact (proj1 (pencil_onStartDrawing_drawing 0 w_pencil_drawing
                    (mkDrawer (Some ∅) None DrawType.Pencil None)
                    eq_refl eq_refl) eq_refl).
  - destruct (proj2 (pencil_onStartDrawing_drawing 0 w_pencil_second_down
                       (mkDrawer (Some ∅) (Some (mkPoint 0 0))
                          DrawType.Pencil (Some 0%nat))
                       eq_refl eq_refl) (mkPoint 6 6) eq_refl)
      as (w' & Hrun & Hdr & Hheap & Hshapes & _).
    exists w'. split; [exact Hrun|]. unfold shapeOf.
    rewrite Hdr, Hheap, Hshapes. repeat split.
Defined.

(** X5.  The draft config wins over the seed of the pencil.  After a
    stroke, every attribute the config gives, other than the points, is an
    attribute of the line; the composite operation is [source-over] only
    when the config gives none; and when the config brings points of its
    own, the line starts with those instead of the anchor, and the moves
    are appended to them. *)
Theorem stroke_config_wins (this : DrawerId) (cfg : Config) (p0 : Point)
    (ps : list Point) (w : World) (d : Drawer)
    (Hd : drawers w !! this = Some d) :
  ∃ w' r ln,
    stroke this cfg p0 ps w = Ret tt w' ∧
    shapeOf this w' = Some r ∧
    heap w' !! r = Some ln ∧
    (∀ k v, k ≠ "points" → cfg !! k = Some v → Konva.attrs ln !! k = Some v) ∧
    (cfg !! "globalCompositeOperation" = None →
     Konva.attrs ln !! "globalCompositeOperation" = Some (VStr "source-over")) ∧
    (∀ ps0, cfg !! "points" = Some (VPoints ps0) →
     Konva.points ln = ps0 ++ coords ps).
Proof.
  destruct (stroke_spec this cfg p0 ps w d Hd)
    as (w' & ln & Hrun & Hdr & _ & _ & _ & _ & Hheap & Hpts & Hattrs).
  exists w', (length (heap w)), ln. split; [exact Hrun|]. repeat split.
  - unfold shapeOf. by rewrite Hdr, lookup_insert_eq.
  - rewrite Hheap. by apply list_lookup_middle.
  - intros k v Hk Hcfg. rewrite Hattrs by done. unfold Pencil.seed. cbn.
    by apply lookup_union_Some_l.
  - intros Hnone. rewrite Hattrs by done. unfold Pencil.seed. cbn.
    rewrite lookup_union_r by done. by rewrite lookup_insert_eq.
  - intros ps0 Hcfg. rewrite Hpts. f_equal.
    unfold Konva.points, Pencil.seed. cbn.
    by rewrite (lookup_union_Some_l _ _ _ _ Hcfg).
Qed.

(** A stroke from (0,0) through (1,1) with a config that brings the points
    9,9,8,8 and the composite operation [destination-out]. *)
Lemma stroke_config_wins_witness :
  ∃ w' r ln,
    stroke 0 eraser_config (mkPoint 0 0) [mkPoint 1 1] w_pencil_new = Ret tt w' ∧
    shapeOf 0 w' = Some r ∧
    heap w' !! r = Some ln ∧
    Konva.attrs ln !! "globalCompositeOperation" = Some (VStr "destination-out") ∧
    Konva.points ln = [9; 9; 8; 8; 1; 1].
Proof.
  destruct (stroke_config_wins 0 eraser_config (mkPoint 0 0) [mkPoint 1 1]
              w_pencil_new (mkDrawer None None DrawType.Pencil None) eq_refl)
    as (w' & r & ln & Hrun & Hshape & Hheap & Hkeys & _ & Hpoints).
  exists w', r, ln. split; [exact Hrun|]. split; [exact Hshape|].
  split; [exact Hheap|]. split.
  - apply Hkeys; [discriminate|reflexivity].
  - exact (Hpoints [9; 9; 8; 8] eq_refl).
Defined.

(** X6.  Pointer-move on a pencil in drawing mode.  With no shape in
    progress the handler returns, also when the stage reports no pointer
    position, and only sets the cursor to [crosshair].  With a shape in
    progress and no pointer position it throws a [TypeError], and the
    cursor it set before is not restored; the shape is not changed. *)
Theorem pencil_onDrawing_drawing (this : DrawerId) (w : World) (d : Drawer)
    (Hd : drawers w !! this = Some d)
    (Hmode : ShapeDrawer.isDrawing this w = Ret true w) :
  (shape d = None →
   Pencil.onDrawing this w
   = Ret tt (with_board (with_cursor "crosshair" (board w)) w)) ∧
  (∀ r ln, shape d = Some r → heap w !! r = Some ln →
     pointer (board w) = None →
     Pencil.onDrawing this w
     = Throw TypeError (with_board (with_cursor "crosshair" (board w)) w)).
Proof.
  pose proof (isDrawing_true_inv _ _ _ Hd Hmode) as Hactive.
  assert (Hbase : ShapeDrawer.onDrawing this w
                  = Ret tt (with_board (with_cursor "crosshair" (board w)) w)).
  { rewrite (base_onDrawing_spec _ _ _ Hd).
    by rewrite bool_decide_eq_true_2. }
  unfold Pencil.onDrawing, mbind, M_bind. rewrite Hbase.
  unfold this_get, Board.stage.getPointerPosition, gets, deref. cbn.
  rewrite Hd. split.
  - by intros ->.
  - intros r ln -> Hr Hp. cbn. by rewrite Hp, Hr.
Qed.

(** A move before any pointer-down, and a move on a shape in progress,
    both on a stage that reports no pointer position. *)
Lemma pencil_onDrawing_drawing_witness :
  Pencil.onDrawing 0 w_pencil_drawing
  = Ret tt (with_board (with_cursor "crosshair" (board w_pencil_drawing))
              w_pencil_drawing) ∧
  Pencil.onDrawing 0 w_pencil_no_pointer
  = Throw TypeError (with_board (with_cursor "crosshair"
                                   (board w_pencil_no_pointer))
                       w_pencil_no_pointer).
Proof.
  split.
  - exact (proj1 (pencil_onDrawing_drawing 0 w_pencil_drawing
                    (mkDrawer (Some ∅) None DrawType.Pencil None)
                    eq_refl eq_refl) eq_refl).
  - exact (proj2 (pencil_onDrawing_drawing 0 w_pencil_no_pointer
                    (mkDrawer (Some ∅) (Some (mkPoint 0 0))
                       DrawType.Pencil (Some 0%nat))
                    eq_refl eq_refl)
             0%nat (Konva.new_Line (Pencil.seed (Some ∅) (mkPoint 0 0)))
             eq_refl eq_refl eq_refl).
Defined.

(** ** Who is drawing *)

(** X7.  [isDrawing()] answers by draw type, not by instance.  After
    [draw] on one drawer, a drawer of the board reports [isDrawing()] true
    exactly when its draw type is that of the drawer that called [draw],
    whether or not it ever entered drawing mode itself. *)
Theorem isDrawing_by_type (this : DrawerId) (cfg : Config) (w : World)
    (d : Drawer) (Hd : drawers w !! this = Some d) :
  ∃ w', ShapeDrawer.draw this cfg w = Ret tt w' ∧
        ∀ other d', drawers w' !! other = Some d' →
          ShapeDrawer.isDrawing other w'
          = Ret (bool_decide (drawType d' = drawType d)) w'.
Proof.
  rewrite (draw_spec _ _ _ _ Hd). eexists. split; [reflexivity|].
  intros other d' Hother.
  rewrite (isDrawing_spec other _ d') by exact Hother. cbn. f_equal.
  apply bool_decide_ext. split; [intros [= ->]|intros ->]; done.
Qed.

(** Two pencils and one [draw]: the second pencil reports [isDrawing()]
    true although none of its listeners is registered. *)
Lemma isDrawing_by_type_witness :
  (∃ w', ShapeDrawer.draw 0 ∅ w_two_pencils = Ret tt w' ∧
         ∀ other d', drawers w' !! other = Some d' →
           ShapeDrawer.isDrawing other w'
           = Ret (bool_decide (drawType d' = DrawType.Pencil)) w') ∧
  let w' := world_of (ShapeDrawer.draw 0 ∅ w_two_pencils) in
  ShapeDrawer.isDrawing 1 w' = Ret true w' ∧
  listenersOf 1 w' = [].
Proof.
  split.
  - exact (isDrawing_by_type 0 ∅ w_two_pencils
             (mkDrawer (Some ∅) None DrawType.Pencil None) eq_refl).
  - vm_compute. split; reflexivity.
Defined.

(** ** Insertion and the position query *)

(** X8.  [insert] leaves the inserted line as the drawer's shape, so the
    position query right after it returns the position given in the
    config, with 0 for a coordinate the config does not give; it does not
    throw, although no drawing session is active. *)
Theorem insert_then_getShapePosition (this : DrawerId) (config : Config)
    (w : World) (d : Drawer) (Hd : drawers w !! this = Some d) :
  ∃ r w',
    Pencil.insert this config w = Ret r w' ∧
    ShapeDrawer.isDrawing this w' = Ret false w' ∧
    ShapeDrawer.getShapePosition this w'
    = Ret (mkPoint (match config !! "x" with Some (VNum n) => n | _ => 0 end)
                   (match config !! "y" with Some (VNum n) => n | _ => 0 end))
          w'.
Proof.
  unfold Pencil.insert, ShapeDrawer.insert, mbind, M_bind.
  rewrite stopDrawing_spec.
  erewrite createShape_spec by (cbn; by rewrite lookup_alter_eq, Hd).
  eexists _, _. split; [reflexivity|].
  match goal with |- context [ShapeDrawer.isDrawing this ?w0] => set (w' := w0) end.
  assert (Hd' : drawers w' !! this
                = Some (with_shape (Some (length (heap w))) (with_shape None d))).
  { subst w'. cbn. by rewrite lookup_insert_eq. }
  split.
  - by rewrite (isDrawing_spec _ _ _ Hd').
  - unfold ShapeDrawer.getShapePosition, mbind, M_bind, this_get, deref.
    rewrite Hd'. cbn.
    replace (heap w' !! length (heap w)) with (Some (Konva.new_Line config))
      by (symmetry; subst w'; cbn; by apply list_lookup_middle).
    reflexivity.
Qed.

(** Inserting [{x: 5, y: 5, radius: 3}] on a pencil in drawing mode, and a
    config without coordinates on a new pencil. *)
Lemma insert_then_getShapePosition_witness :
  (∃ r w', Pencil.insert 0 circle_config w_pencil_drawing = Ret r w' ∧
           ShapeDrawer.isDrawing 0 w' = Ret false w' ∧
           ShapeDrawer.getShapePosition 0 w' = Ret (mkPoint 5 5) w') ∧
  (∃ r w', Pencil.insert 0 ∅ w_pencil_new = Ret r w' ∧
           ShapeDrawer.isDrawing 0 w' = Ret false w' ∧
           ShapeDrawer.getShapePosition 0 w' = Ret (mkPoint 0 0) w').
Proof.
  split.
  - exact (insert_then_getShapePosition 0 circle_config w_pencil_drawing
             (mkDrawer (Some ∅) None DrawType.Pencil None) eq_refl).
  - exact (insert_then_getShapePosition 0 ∅ w_pencil_new
             (mkDrawer None None DrawType.Pencil None) eq_refl).
Defined.

(** ** Ending a stroke *)

(** X9.  A whole gesture of the pencil (entering drawing mode, pointer
    down at [p0], moves [ps], pointer up) with a config that sets no
    points: the line stays committed on the board with the coordinates of
    [p0] and [ps], also when there was no move at all; the drawer holds no
    shape any more; it is still in drawing mode with all its listeners
    registered; and a later pointer-move changes no line and commits
    nothing. *)
Theorem gesture_commits (this : DrawerId) (cfg : Config) (p0 : Point)
    (ps : list Point) (w : World) (d : Drawer)
    (Hd : drawers w !! this = Some d) (Hcfg : cfg !! "points" = None) :
  ∃ w' ln,
    gesture this cfg p0 ps w = Ret tt w' ∧
    shapeOf this w' = None ∧
    heap w' = heap w ++ [ln] ∧
    shapes (board w') = shapes (board w) ++ [length (heap w)] ∧
    Konva.points ln = [x p0; y p0] ++ coords ps ∧
    ShapeDrawer.isDrawing this w' = Ret true w' ∧
    attached this w' ∧
    ∀ p, ∃ w'', (pointerAt p;; Pencil.onDrawing this) w' = Ret tt w'' ∧
                heap w'' = heap w' ∧
                shapes (board w'') = shapes (board w').
Proof.
  destruct (stroke_spec this cfg p0 ps w d Hd)
    as (w1 & ln & Hrun & Hdr & Hmode & Hst & Hwi & Hsh & Hheap & Hpts & _).
  unfold gesture, mbind, M_bind. rewrite Hrun.
  eexists _, ln. split; [reflexivity|].
  match goal with |- context [shapeOf this ?w0] => set (w' := w0) end.
  assert (Hd' : drawers w' !! this
                = Some (mkDrawer (Some cfg) (Some p0) (drawType d) None)).
  { subst w'. cbn. by rewrite lookup_alter_eq, Hdr, lookup_insert_eq. }
  assert (Hactive : activeDrawing (board w') = Some (drawType d)) by done.
  repeat split.
  - unfold shapeOf. by rewrite Hd'.
  - exact Hheap.
  - exact Hsh.
  - rewrite Hpts. f_equal. unfold Konva.points, Pencil.seed. cbn.
    rewrite lookup_union_r by done.
    by rewrite lookup_insert_ne, lookup_singleton_eq.
  - rewrite (isDrawing_spec _ _ _ Hd'). by rewrite bool_decide_eq_true_2.
  - subst w'. cbn. rewrite Hst. intros eh Hin. apply elem_of_app. by right.
  - subst w'. cbn. rewrite Hwi. intros eh Hin. apply elem_of_app. by right.
  - intros p. unfold mbind, M_bind, pointerAt, Board.upd, modify.
    unfold Pencil.onDrawing, mbind, M_bind.
    erewrite base_onDrawing_spec by exact Hd'.
    rewrite bool_decide_eq_true_2 by done.
    unfold this_get. cbn. rewrite lookup_alter_eq, Hdr, lookup_insert_eq. cbn.
    eexists. by repeat split.
Qed.

(** A pointer-down at (3,4) and a pointer-up with no move in between: the
    one-point line is committed as it is. *)
Lemma gesture_commits_witness :
  ∃ w' ln,
    gesture 0 ∅ (mkPoint 3 4) [] w_pencil_new = Ret tt w' ∧
    shapeOf 0 w' = None ∧
    heap w' = heap w_pencil_new ++ [ln] ∧
    shapes (board w') = [0%nat] ∧
    Konva.points ln = [3; 4] ∧
    ShapeDrawer.isDrawing 0 w' = Ret true w' ∧
    attached 0 w' ∧
    ∀ p, ∃ w'', (pointerAt p;; Pencil.onDrawing 0) w' = Ret tt w'' ∧
                heap w'' = heap w' ∧
                shapes (board w'') = shapes (board w').
Proof.
  exact (gesture_commits 0 ∅ (mkPoint 3 4) [] w_pencil_new
           (mkDrawer None None DrawType.Pencil None) eq_refl eq_refl).
Defined.

(** X10.  The Escape key during a stroke ends the session and keeps the
    line: the line drawn so far stays committed with its points, the
    drawer holds no shape, no drawer of the board reports [isDrawing()],
    and none of the drawer's listeners is registered any more. *)
Theorem cancelled_keeps_line (this : DrawerId) (cfg : Config) (p0 : Point)
    (ps : list Point) (w : World) (d : Drawer)
    (Hd : drawers w !! this = Some d) (Hcfg : cfg !! "points" = None) :
  ∃ w' ln,
    cancelled this cfg p0 ps w = Ret tt w' ∧
    shapeOf this w' = None ∧
    heap w' = heap w ++ [ln] ∧
    shapes (board w') = shapes (board w) ++ [length (heap w)] ∧
    Konva.points ln = [x p0; y p0] ++ coords ps ∧
    (∀ other d', drawers w' !! other = Some d' →
       ShapeDrawer.isDrawing other w' = Ret false w') ∧
    Forall (λ eh, eh ∉ stageListeners (board w')) (stageHandlers this) ∧
    Forall (λ eh, eh ∉ windowListeners w') (windowHandlers this).
Proof.
  destruct (stroke_spec this cfg p0 ps w d Hd)
    as (w1 & ln & Hrun & Hdr & Hmode & Hst & Hwi & Hsh & Hheap & Hpts & _).
  unfold cancelled, mbind, M_bind. rewrite Hrun.
  unfold Pencil.onKeyDown, ShapeDrawer.onKeyDown.
  rewrite decide_True by done. rewrite stopDrawing_spec.
  eexists _, ln. split; [reflexivity|]. cbn. repeat split.
  - unfold shapeOf. cbn. by rewrite lookup_alter_eq, Hdr, lookup_insert_eq.
  - exact Hheap.
  - exact Hsh.
  - rewrite Hpts. f_equal. unfold Konva.points, Pencil.seed. cbn.
    rewrite lookup_union_r by done.
    by rewrite lookup_insert_ne, lookup_singleton_eq.
  - intros other d' Hother.
    by rewrite (isDrawing_spec other _ d') by exact Hother.
  - apply removed_not_registered.
  - apply removed_not_registered.
Qed.

(** Escape after the stroke (0,0), (1,1). *)
Lemma cancelled_keeps_line_witness :
  ∃ w' ln,
    cancelled 0 ∅ (mkPoint 0 0) [mkPoint 1 1] w_pencil_new = Ret tt w' ∧
    shapeOf 0 w' = None ∧
    heap w' = heap w_pencil_new ++ [ln] ∧
    shapes (board w') = [0%nat] ∧
    Konva.points ln = [0; 0; 1; 1] ∧
    (∀ other d', drawers w' !! other = Some d' →
       ShapeDrawer.isDrawing other w' = Ret false w') ∧
    Forall (λ eh, eh ∉ stageListeners (board w')) (stageHandlers 0) ∧
    Forall (λ eh, eh ∉ windowListeners w') (windowHandlers 0).
Proof.
  exact (cancelled_keeps_line 0 ∅ (mkPoint 0 0) [mkPoint 1 1] w_pencil_new
           (mkDrawer None None DrawType.Pencil None) eq_refl eq_refl).
Defined.

(** ** What one call can do *)

Lemma world_eta (w : World) :
  with_board (with_cursor (cursor (board w)) (board w)) w = w.
Proof. by destruct w as [[] ? ? ?]. Qed.

(** The pointer-down handler of the pencil leaves the state as it is (it
    threw), or a created line. *)
Lemma pointerdown_cases (this : DrawerId) (w : World) (d : Drawer) :
  drawers w !! this = Some d →
  world_of (Pencil.onStartDrawing this w) = w ∨
  ∃ d' cfg, drawType d' = drawType d ∧ config d' = config d ∧
            world_of (Pencil.onStartDrawing this w) = created this d' cfg w.
Proof.
  intros Hd.
  destruct (decide (activeDrawing (board w) = Some (drawType d))) as [Hon|Hoff].
  - destruct (pointer (board w)) as [pt|] eqn:Hp.
    + right. exists (with_startPoint (Some pt) d), (Pencil.seed (config d) pt).
      rewrite (pencil_onStartDrawing_active _ _ _ _ Hd Hon Hp). by repeat split.
    + left. unfold Pencil.onStartDrawing, ShapeDrawer.onStartDrawing,
        mbind, M_bind.
      rewrite (isDrawing_spec _ _ _ Hd), bool_decide_eq_true_2 by done. cbn.
      unfold Board.stage.getPointerPosition, gets. by rewrite Hp.
  - unfold Pencil.onStartDrawing, mbind, M_bind.
    rewrite (base_onStartDrawing_idle _ _ _ Hd Hoff).
    unfold this_get. rewrite Hd.
    destruct (startPoint d) as [pt|] eqn:Hsp; [|by left].
    right. exists d, (Pencil.seed (config d) pt).
    rewrite Hd, (createShape_spec _ _ _ _ Hd). by repeat split.
Qed.

(** The pointer-move handler of the pencil changes the cursor at most, or
    it also puts longer points into the line of the drawer's shape and
    counts a redraw. *)
Lemma pointermove_cases (this : DrawerId) (w : World) (d : Drawer) :
  drawers w !! this = Some d →
  ∃ c,
    world_of (Pencil.onDrawing this w)
    = with_board (with_cursor c (board w)) w ∨
    ∃ r ln pt, shape d = Some r ∧ heap w !! r = Some ln ∧
      world_of (Pencil.onDrawing this w)
      = mkWorld
          (mkBoard (activeDrawing (board w)) c (pointer (board w))
             (stageListeners (board w)) (shapes (board w))
             (S (redraws (board w))))
          (windowListeners w)
          (<[r := Konva.set_points (Konva.points ln ++ [x pt; y pt]) ln]> (heap w))
          (drawers w).
Proof.
  intros Hd.
  exists (if bool_decide (activeDrawing (board w) = Some (drawType d))
          then "crosshair" else cursor (board w)).
  destruct (shape d) as [r|] eqn:Hs.
  - destruct (heap w !! r) as [ln|] eqn:Hr.
    + destruct (pointer (board w)) as [pt|] eqn:Hp.
      * right. exists r, ln, pt.
        rewrite (pencil_onDrawing_shape _ _ _ _ _ _ Hd Hs Hr Hp). cbn.
        by rewrite Hp.
      * left. unfold Pencil.onDrawing, mbind, M_bind.
        rewrite (base_onDrawing_spec _ _ _ Hd).
        unfold this_get, Board.stage.getPointerPosition, gets, deref.
        case_bool_decide; cbn; rewrite ?Hd, ?Hs, ?Hp, ?Hr; cbn;
          rewrite ?Hp, ?Hr; cbn; by rewrite ?world_eta.
    + left. unfold Pencil.onDrawing, mbind, M_bind.
      rewrite (base_onDrawing_spec _ _ _ Hd).
      unfold this_get, Board.stage.getPointerPosition, gets, deref.
      case_bool_decide; cbn; rewrite ?Hd, ?Hs; cbn; rewrite ?Hr; cbn;
        by rewrite ?world_eta.
  - left. unfold Pencil.onDrawing, mbind, M_bind.
    rewrite (base_onDrawing_spec _ _ _ Hd). unfold this_get.
    case_bool_decide; cbn; rewrite ?Hd, ?Hs; cbn; by rewrite ?world_eta.
Qed.

Lemma insert_spec (this : DrawerId) (cfg : Config) (w : World) (d : Drawer) :
  drawers w !! this = Some d →
  world_of (Pencil.insert this cfg w)
  = created this (with_shape None d) cfg
      (world_of (ShapeDrawer.stopDrawing this w)).
Proof.
  intros Hd. unfold Pencil.insert, ShapeDrawer.insert, mbind, M_bind.
  rewrite stopDrawing_spec.
  erewrite createShape_spec by (cbn; by rewrite lookup_alter_eq, Hd).
  reflexivity.
Qed.

Lemma new_spec (dt : DrawType.t) (w : World) :
  ∃ i, drawers w !! i = None ∧
       world_of (ShapeDrawer.new dt w)
       = with_drawers (<[i := mkDrawer None None dt None]> (drawers w)) w.
Proof.
  exists (fresh (dom (drawers w))). split; [|done].
  apply not_elem_of_dom, is_fresh.
Qed.

(** ** Listener tables under [draw] and [stopDrawing] *)

Section tables.
(** The stage table with [stageHandlers], or the window table with
    [windowHandlers]. *)
Variable hs : DrawerId → Listeners.
Hypothesis hs_owner : ∀ i eh, eh ∈ hs i → eh.2.1 = i.
Hypothesis hs_NoDup : ∀ i, NoDup (hs i).

Lemma owner_removed (this : DrawerId) (l : Listeners) :
  filter (λ eh, eh.2.1 = this) l = [] ∨
  filter (λ eh, eh.2.1 = this) l = hs this →
  filter (λ eh, eh.2.1 = this) (filter (λ eh, eh ∉ hs this) l) = [].
Proof.
  intros Hall. rewrite list_filter_filter.
  apply filter_none, Forall_forall. intros eh Hin [Hown Hnot].
  assert (Hf : eh ∈ filter (λ eh, eh.2.1 = this) l)
    by by apply list_elem_of_filter.
  destruct Hall as [Hnil|Hfull].
  - rewrite Hnil in Hf. by apply elem_of_nil in Hf.
  - rewrite Hfull in Hf. done.
Qed.

Lemma owner_self (this : DrawerId) :
  filter (λ eh, eh.2.1 = this) (hs this) = hs this.
Proof. apply filter_fixed, Forall_forall. intros eh. apply hs_owner. Qed.

Lemma owner_other (this other : DrawerId) :
  other ≠ this → filter (λ eh, eh.2.1 = other) (hs this) = [].
Proof.
  intros Hne. apply filter_none, Forall_forall. intros eh Hin Heq.
  apply hs_owner in Hin. congruence.
Qed.

Lemma removed_other (this other : DrawerId) (l : Listeners) :
  other ≠ this →
  filter (λ eh, eh.2.1 = other) (filter (λ eh, eh ∉ hs this) l)
  = filter (λ eh, eh.2.1 = other) l.
Proof. intros Hne. apply filter_other_owner; auto. Qed.

Lemma readded_self (this : DrawerId) (l : Listeners) :
  filter (λ eh, eh.2.1 = this) l = [] ∨
  filter (λ eh, eh.2.1 = this) l = hs this →
  filter (λ eh, eh.2.1 = this) (filter (λ eh, eh ∉ hs this) l ++ hs this)
  = hs this.
Proof.
  intros Hall. by rewrite filter_app, owner_removed, owner_self.
Qed.

Lemma readded_other (this other : DrawerId) (l : Listeners) :
  other ≠ this →
  filter (λ eh, eh.2.1 = other) (filter (λ eh, eh ∉ hs this) l ++ hs this)
  = filter (λ eh, eh.2.1 = other) l.
Proof.
  intros Hne.
  by rewrite filter_app, removed_other, owner_other, app_nil_r.
Qed.

Lemma readded_NoDup (this : DrawerId) (l : Listeners) :
  NoDup l → NoDup (filter (λ eh, eh ∉ hs this) l ++ hs this).
Proof.
  intros Hl. apply NoDup_app. split; [by apply NoDup_filter|]. split.
  - intros eh Hin. by apply list_elem_of_filter in Hin as [Hn _].
  - apply hs_NoDup.
Qed.
End tables.

Lemma stageHandlers_owned (i : DrawerId) (eh : string * Handler) :
  eh ∈ stageHandlers i → eh.2.1 = i.
Proof. apply stageHandlers_owner. Qed.

Lemma windowHandlers_owned (i : DrawerId) (eh : string * Handler) :
  eh ∈ windowHandlers i → eh.2.1 = i.
Proof. apply windowHandlers_owner. Qed.

Lemma registered_not_unregistered (i : DrawerId) (w : World) :
  registered i w → unregistered i w → False.
Proof. intros [Hr _] [Hu _]. rewrite Hu in Hr. discriminate Hr. Qed.

(** [stopDrawing] on the tables: the caller ends up unregistered, the
    listeners of the others stay as they are. *)
Lemma tables_stopDrawing (this : DrawerId) (w : World) :
  tables_ok w →
  let w' := world_of (ShapeDrawer.stopDrawing this w) in
  tables_ok w' ∧ unregistered this w' ∧
  ∀ i, i ≠ this → (registered i w' ↔ registered i w).
Proof.
  intros (Hst & Hwi & Hall). rewrite stopDrawing_spec.
  unfold tables_ok, registered, unregistered in *. cbn.
  assert (Hthis :
    filter (λ eh, eh.2.1 = this)
      (filter (λ eh, eh ∉ stageHandlers this) (stageListeners (board w))) = [] ∧
    filter (λ eh, eh.2.1 = this)
      (filter (λ eh, eh ∉ windowHandlers this) (windowListeners w)) = []).
  { destruct (Hall this) as [[H1 H2]|[H1 H2]];
      rewrite (owner_removed stageHandlers), (owner_removed windowHandlers);
      auto. }
  split; [split; [by apply NoDup_filter|split; [by apply NoDup_filter|]]|split].
  - intros i. destruct (decide (i = this)) as [->|Hne]; [by right|].
    rewrite (removed_other stageHandlers stageHandlers_owned),
            (removed_other windowHandlers windowHandlers_owned) by done.
    apply Hall.
  - exact Hthis.
  - intros i Hne.
    by rewrite (removed_other stageHandlers stageHandlers_owned),
               (removed_other windowHandlers windowHandlers_owned) by done.
Qed.

(** [draw] on the tables: the caller ends up registered, the listeners of
    the others stay as they are. *)
Lemma tables_draw (this : DrawerId) (cfg : Config) (w : World) (d : Drawer) :
  drawers w !! this = Some d →
  tables_ok w →
  let w' := world_of (ShapeDrawer.draw this cfg w) in
  tables_ok w' ∧ registered this w' ∧
  ∀ i, i ≠ this → (registered i w' ↔ registered i w).
Proof.
  intros Hd (Hst & Hwi & Hall). rewrite (draw_spec _ _ _ _ Hd).
  unfold tables_ok, registered, unregistered in *. cbn.
  assert (Hthis :
    filter (λ eh, eh.2.1 = this)
      (filter (λ eh, eh ∉ stageHandlers this) (stageListeners (board w))
         ++ stageHandlers this) = stageHandlers this ∧
    filter (λ eh, eh.2.1 = this)
      (filter (λ eh, eh ∉ windowHandlers this) (windowListeners w)
         ++ windowHandlers this) = windowHandlers this).
  { destruct (Hall this) as [[H1 H2]|[H1 H2]];
      rewrite (readded_self stageHandlers stageHandlers_owned),
              (readded_self windowHandlers windowHandlers_owned);
      auto. }
  split; [split; [|split]|split].
  - apply readded_NoDup; auto using stageHandlers_NoDup.
  - apply readded_NoDup; auto using windowHandlers_NoDup.
  - intros i. destruct (decide (i = this)) as [->|Hne]; [by left|].
    rewrite (readded_other stageHandlers stageHandlers_owned),
            (readded_other windowHandlers windowHandlers_owned) by done.
    apply Hall.
  - exact Hthis.
  - intros i Hne.
    by rewrite (readded_other stageHandlers stageHandlers_owned),
               (readded_other windowHandlers windowHandlers_owned) by done.
Qed.

(** ** The invariants along a call sequence *)

Lemma same_session_refl (w : World) : same_session w w.
Proof. repeat split. intros i d Hd. by exists d. Qed.

Lemma same_session_trans (w1 w2 w3 : World) :
  same_session w1 w2 → same_session w2 w3 → same_session w1 w3.
Proof.
  intros (Ha1 & Hs1 & Hw1 & Hd1) (Ha2 & Hs2 & Hw2 & Hd2).
  split; [congruence|]. split; [congruence|]. split; [congruence|].
  intros i d Hd. destruct (Hd1 i d Hd) as (d' & Hd' & Ht & Hc).
  destruct (Hd2 i d' Hd') as (d'' & Hd'' & Ht' & Hc').
  exists d''. split; [done|]. split; congruence.
Qed.

Lemma same_session_created (this : DrawerId) (d d' : Drawer) (cfg : Config)
    (w : World) :
  drawers w !! this = Some d →
  drawType d' = drawType d → config d' = config d →
  same_session w (created this d' cfg w).
Proof.
  intros Hd Ht Hc. repeat split. intros i d0 Hd0. cbn.
  destruct (decide (i = this)) as [->|Hne].
  - rewrite lookup_insert_eq. eexists. split; [done|]. cbn.
    rewrite Hd in Hd0. injection Hd0 as <-. done.
  - rewrite lookup_insert_ne by done. by exists d0.
Qed.

(** Every step is a [stopDrawing], a [draw] or nothing, followed by a
    change that leaves the mode and the tables alone. *)
Lemma step_session (w w' : World) :
  step w w' →
  ∃ w1, (w1 = w ∨
         (∃ this, w1 = world_of (ShapeDrawer.stopDrawing this w)) ∨
         (∃ this cfg d, drawers w !! this = Some d ∧
                        w1 = world_of (ShapeDrawer.draw this cfg w))) ∧
        same_session w1 w'.
Proof.
  intros Hstep. destruct Hstep as
    [dt w|p w|this cfg w [d Hd]|this w _|this w _|this key w _
    |this cfg w d Hd _|this w d Hd _|this w d Hd _].
  - exists w. split; [by left|]. destruct (new_spec dt w) as (i & Hi & ->).
    repeat split. intros j d Hj. cbn. exists d.
    rewrite lookup_insert_ne by congruence. done.
  - exists w. split; [by left|]. repeat split. intros j d Hj. by exists d.
  - eexists. split; [right; right; by exists this, cfg, d|].
    apply same_session_refl.
  - eexists. split; [right; left; by exists this|]. apply same_session_refl.
  - exists w. split; [by left|].
    change (world_of (ShapeDrawer.onFinishDrawing this w))
      with (with_board (with_cursor "inherit" (board w))
              (with_drawers (alter (with_shape None) this (drawers w)) w)).
    repeat split. intros j d Hj. cbn.
    destruct (decide (j = this)) as [->|Hne].
    + rewrite lookup_alter_eq, Hj. by eexists.
    + rewrite lookup_alter_ne by done. by exists d.
  - unfold ShapeDrawer.onKeyDown. destruct (decide (key = "Escape")).
    + eexists. split; [right; left; by exists this|]. apply same_session_refl.
    + exists w. split; [by left|]. apply same_session_refl.
  - eexists. split; [right; left; by exists this|].
    rewrite (insert_spec _ _ _ _ Hd).
    eapply (same_session_created this (with_shape None d)); [|done..].
    rewrite stopDrawing_spec. cbn. by rewrite lookup_alter_eq, Hd.
  - exists w. split; [by left|].
    destruct (pointerdown_cases this w d Hd) as [->|(d' & cfg & Ht & Hc & ->)].
    + apply same_session_refl.
    + by eapply same_session_created.
  - exists w. split; [by left|].
    destruct (pointermove_cases this w d Hd) as (c & [->|(r & ln & pt & _ & _ & ->)]);
      repeat split; intros j d0 Hj; by exists d0.
Qed.

Lemma registered_same (i : DrawerId) (w w' : World) :
  stageListeners (board w') = stageListeners (board w) →
  windowListeners w' = windowListeners w →
  (registered i w' ↔ registered i w) ∧ (unregistered i w' ↔ unregistered i w).
Proof. intros Hs Hw. unfold registered, unregistered. by rewrite Hs, Hw. Qed.

Lemma invariant_same_session (w w' : World) :
  same_session w w' →
  tables_ok w ∧ sessions_ok w → tables_ok w' ∧ sessions_ok w'.
Proof.
  intros (Ha & Hs & Hw & Hdr) [(Hst & Hwi & Hall) (Hcfg & Hown)].
  split; [split; [by rewrite Hs|split; [by rewrite Hw|]]|split].
  - intros i. destruct (registered_same i w w' Hs Hw) as [-> ->]. apply Hall.
  - intros i Hreg. apply (registered_same i w w' Hs Hw) in Hreg.
    destruct (Hcfg i Hreg) as (d & cfg & Hd & Hc).
    destruct (Hdr i d Hd) as (d' & Hd' & _ & Hc').
    exists d', cfg. split; [done|congruence].
  - intros t Ht. rewrite Ha in Ht.
    destruct (Hown t Ht) as (i & d & Hd & Hty & Hreg).
    destruct (Hdr i d Hd) as (d' & Hd' & Hty' & _).
    exists i, d'. split; [done|]. split; [congruence|].
    by apply (registered_same i w w' Hs Hw).
Qed.

Lemma invariant_stopDrawing (this : DrawerId) (w : World) :
  tables_ok w ∧ sessions_ok w →
  tables_ok (world_of (ShapeDrawer.stopDrawing this w)) ∧
  sessions_ok (world_of (ShapeDrawer.stopDrawing this w)).
Proof.
  intros [Htab (Hcfg & Hown)].
  destruct (tables_stopDrawing this w Htab) as (Htab' & Hun & Hother).
  split; [exact Htab'|]. split.
  - intros i Hreg. destruct (decide (i = this)) as [->|Hne].
    { destruct (registered_not_unregistered _ _ Hreg Hun). }
    apply Hother in Hreg; [|done].
    destruct (Hcfg i Hreg) as (d & cfg & Hd & Hc). exists d, cfg.
    rewrite stopDrawing_spec. cbn. by rewrite lookup_alter_ne.
  - rewrite stopDrawing_spec. cbn. intros t [=].
Qed.

Lemma invariant_draw (this : DrawerId) (cfg : Config) (w : World) (d : Drawer) :
  drawers w !! this = Some d →
  tables_ok w ∧ sessions_ok w →
  tables_ok (world_of (ShapeDrawer.draw this cfg w)) ∧
  sessions_ok (world_of (ShapeDrawer.draw this cfg w)).
Proof.
  intros Hd [Htab (Hcfg & Hown)].
  destruct (tables_draw this cfg w d Hd Htab) as (Htab' & Hreg' & Hother).
  split; [exact Htab'|].
  assert (Hthis : drawers (world_of (ShapeDrawer.draw this cfg w)) !! this
                  = Some (mkDrawer (Some cfg) (startPoint d) (drawType d) None)).
  { rewrite (draw_spec _ _ _ _ Hd). cbn. by rewrite lookup_insert_eq. }
  split.
  - intros i Hreg. destruct (decide (i = this)) as [->|Hne].
    { eexists _, cfg. by split; [exact Hthis|]. }
    apply Hother in Hreg; [|done].
    destruct (Hcfg i Hreg) as (d0 & cfg0 & Hd0 & Hc). exists d0, cfg0.
    rewrite (draw_spec _ _ _ _ Hd). cbn. by rewrite lookup_insert_ne.
  - intros t Ht. exists this. eexists. split; [exact Hthis|].
    split; [|exact Hreg'].
    rewrite (draw_spec _ _ _ _ Hd) in Ht. cbn in Ht. by injection Ht.
Qed.

Lemma invariant_step (w w' : World) :
  step w w' →
  tables_ok w ∧ sessions_ok w → tables_ok w' ∧ sessions_ok w'.
Proof.
  intros Hstep Hinv.
  destruct (step_session w w' Hstep)
    as (w1 & [->|[(this & ->)|(this & cfg & d & Hd & ->)]] & Hsame);
    apply (invariant_same_session _ _ Hsame).
  - exact Hinv.
  - by apply invariant_stopDrawing.
  - by eapply invariant_draw.
Qed.

Lemma invariant_init : tables_ok init ∧ sessions_ok init.
Proof.
  split; [split; [apply NoDup_nil_2|split; [apply NoDup_nil_2|]]|split].
  - intros i. by right.
  - intros i [Hreg _]. discriminate Hreg.
  - intros t [=].
Qed.

Lemma invariant_reachable (w : World) :
  reachable w → tables_ok w ∧ sessions_ok w.
Proof.
  revert w. apply (rtc_ind_r (λ w, tables_ok w ∧ sessions_ok w) init).
  - apply invariant_init.
  - intros w w' _ Hstep IH. by eapply invariant_step.
Qed.

(** ** The shape store along a call sequence *)

Lemma store_kept (w w' : World) :
  heap w' = heap w →
  shapes (board w') = shapes (board w) →
  (∀ i d' r, drawers w' !! i = Some d' → shape d' = Some r →
     ∃ d, drawers w !! i = Some d ∧ shape d = Some r) →
  store_ok w → store_ok w'.
Proof.
  intros Hh Hs Hdr [Hseq Hrefs]. split; [by rewrite Hs, Hh|].
  intros i d' r Hd' Hr. destruct (Hdr i d' r Hd' Hr) as (d & Hd & Hsh).
  rewrite Hh. by eapply Hrefs.
Qed.

Lemma store_shape_cleared (this : DrawerId) (ds : gmap DrawerId Drawer)
    (i : DrawerId) (d' : Drawer) (r : ShapeRef) :
  alter (with_shape None) this ds !! i = Some d' → shape d' = Some r →
  ∃ d, ds !! i = Some d ∧ shape d = Some r.
Proof.
  destruct (decide (i = this)) as [->|Hne].
  - rewrite lookup_alter_eq. destruct (ds !! this); [|done].
    intros [= <-]. done.
  - rewrite lookup_alter_ne by done. intros Hd Hr. by exists d'.
Qed.

Lemma store_stopDrawing (this : DrawerId) (w : World) :
  store_ok w → store_ok (world_of (ShapeDrawer.stopDrawing this w)).
Proof.
  rewrite stopDrawing_spec. apply store_kept; [done..|].
  cbn. apply store_shape_cleared.
Qed.

Lemma store_created (this : DrawerId) (d : Drawer) (cfg : Config) (w : World) :
  store_ok w → store_ok (created this d cfg w).
Proof.
  intros [Hseq Hrefs]. split; cbn.
  - rewrite length_app, Hseq. cbn. rewrite Nat.add_1_r, seq_S. done.
  - intros i d' r. rewrite length_app. cbn.
    destruct (decide (i = this)) as [->|Hne].
    + rewrite lookup_insert_eq. intros [= <-]. cbn. intros [= <-]. lia.
    + rewrite lookup_insert_ne by done. intros Hd' Hr.
      specialize (Hrefs i d' r Hd' Hr). lia.
Qed.

Lemma store_step (w w' : World) : step w w' → store_ok w → store_ok w'.
Proof.
  intros Hstep. destruct Hstep as
    [dt w|p w|this cfg w [d Hd]|this w _|this w _|this key w _
    |this cfg w d Hd _|this w d Hd _|this w d Hd _].
  - destruct (new_spec dt w) as (i & Hi & ->).
    apply store_kept; [done..|]. cbn. intros j d' r.
    destruct (decide (j = i)) as [->|Hne].
    + rewrite lookup_insert_eq. intros [= <-]. done.
    + rewrite lookup_insert_ne by done. intros Hd' Hr. by exists d'.
  - apply store_kept; [done..|]. intros j d' r Hd' Hr. by exists d'.
  - rewrite (draw_spec _ _ _ _ Hd). apply store_kept; [done..|].
    cbn. intros j d' r. destruct (decide (j = this)) as [->|Hne].
    + rewrite lookup_insert_eq. intros [= <-]. done.
    + rewrite lookup_insert_ne by done. intros Hd' Hr. by exists d'.
  - apply store_stopDrawing.
  - change (world_of (ShapeDrawer.onFinishDrawing this w))
      with (with_board (with_cursor "inherit" (board w))
              (with_drawers (alter (with_shape None) this (drawers w)) w)).
    apply store_kept; [done..|]. cbn. apply store_shape_cleared.
  - unfold ShapeDrawer.onKeyDown. destruct (decide (key = "Escape")).
    + apply store_stopDrawing.
    + done.
  - rewrite (insert_spec _ _ _ _ Hd). intros Hok.
    by apply store_created, store_stopDrawing.
  - destruct (pointerdown_cases this w d Hd) as [->|(d' & cfg & _ & _ & ->)].
    + done.
    + apply store_created.
  - destruct (pointermove_cases this w d Hd)
      as (c & [->|(r & ln & pt & _ & _ & ->)]).
    + apply store_kept; [done..|]. intros j d' r Hd' Hr. by exists d'.
    + intros [Hseq Hrefs]. split; cbn.
      * by rewrite length_insert.
      * intros j d' r' Hd' Hr'. rewrite length_insert. by eapply Hrefs.
Qed.

Lemma store_reachable (w : World) : reachable w → store_ok w.
Proof.
  revert w. apply (rtc_ind_r store_ok init).
  - split; [done|]. intros i d r Hd. cbn in Hd. by rewrite lookup_empty in Hd.
  - intros w w' _ Hstep IH. by eapply store_step.
Qed.

Lemma grows_kept (w w' : World) :
  heap w' = heap w → shapes (board w') = shapes (board w) → grows w w'.
Proof.
  intros Hh Hs. split; [by rewrite Hs|].
  intros r ln Hr. exists ln. by rewrite Hh.
Qed.

Lemma grows_trans (w1 w2 w3 : World) : grows w1 w2 → grows w2 w3 → grows w1 w3.
Proof.
  intros [Hs1 Hh1] [Hs2 Hh2]. split; [by etrans|].
  intros r ln Hr. destruct (Hh1 r ln Hr) as (ln' & Hr' & Hp & Ha).
  destruct (Hh2 r ln' Hr') as (ln'' & Hr'' & Hp' & Ha').
  exists ln''. split; [done|]. split; [by etrans|].
  intros k Hk. by rewrite Ha', Ha.
Qed.

Lemma grows_created (this : DrawerId) (d : Drawer) (cfg : Config) (w : World) :
  grows w (created this d cfg w).
Proof.
  split; cbn; [by apply prefix_app_r|].
  intros r ln Hr. exists ln. split; [|done].
  rewrite lookup_app_l; [done|]. by eapply lookup_lt_Some.
Qed.

Lemma grows_step (w w' : World) : step w w' → grows w w'.
Proof.
  intros Hstep. destruct Hstep as
    [dt w|p w|this cfg w [d Hd]|this w _|this w _|this key w _
    |this cfg w d Hd _|this w d Hd _|this w d Hd _].
  - destruct (new_spec dt w) as (i & Hi & ->). by apply grows_kept.
  - by apply grows_kept.
  - rewrite (draw_spec _ _ _ _ Hd). by apply grows_kept.
  - rewrite stopDrawing_spec. by apply grows_kept.
  - by apply grows_kept.
  - unfold ShapeDrawer.onKeyDown. destruct (decide (key = "Escape")).
    + rewrite stopDrawing_spec. by apply grows_kept.
    + by apply grows_kept.
  - rewrite (insert_spec _ _ _ _ Hd).
    eapply grows_trans; [|apply grows_created].
    rewrite stopDrawing_spec. by apply grows_kept.
  - destruct (pointerdown_cases this w d Hd) as [->|(d' & cfg & _ & _ & ->)].
    + by apply grows_kept.
    + apply grows_created.
  - destruct (pointermove_cases this w d Hd)
      as (c & [->|(r & ln & pt & _ & Hr & ->)]).
    + by apply grows_kept.
    + split; [done|]. cbn. intros r' ln' Hr'.
      destruct (decide (r' = r)) as [->|Hne].
      * rewrite list_lookup_insert_eq by by eapply lookup_lt_Some.
        eexists. split; [done|]. rewrite Hr in Hr'. injection Hr' as <-.
        split.
        -- rewrite points_set_points. by apply prefix_app_r.
        -- intros k Hk. by apply attrs_set_points.
      * rewrite list_lookup_insert_ne by done. by exists ln'.
Qed.

(** ** Properties of every reachable state *)

Lemma listenersOf_split (i : DrawerId) (w : World) :
  listenersOf i w
  = filter (λ eh, eh.2.1 = i) (stageListeners (board w))
      ++ filter (λ eh, eh.2.1 = i) (windowListeners w).
Proof. unfold listenersOf. apply filter_app. Qed.

(** The sample call sequence, step by step. *)
Lemma s_down_steps : rtc step init s_down.
Proof.
  apply (rtc_r _ s_down_at); [apply (rtc_r _ s_drawn);
    [apply (rtc_r _ s_line); [apply (rtc_r _ s_pencil); [apply rtc_once|]|]|]|].
  - exact (step_new DrawType.Pencil init).
  - exact (step_new DrawType.Line s_pencil).
  - refine (step_draw 0 ∅ s_line _). eexists. vm_compute. reflexivity.
  - exact (step_pointer (Some (mkPoint 0 0)) s_drawn).
  - refine (step_onStartDrawing 0 s_down_at
              (mkDrawer (Some ∅) None DrawType.Pencil None) _ _);
      vm_compute; reflexivity.
Defined.

Lemma s_down_taken_steps : rtc step s_down s_taken.
Proof.
  apply (rtc_r _ s_moved); [apply (rtc_r _ s_move_at); [apply rtc_once|]|].
  - exact (step_pointer (Some (mkPoint 1 1)) s_down).
  - refine (step_onDrawing 0 s_move_at
              (mkDrawer (Some ∅) (Some (mkPoint 0 0)) DrawType.Pencil (Some 0%nat))
              _ _);
      vm_compute; reflexivity.
  - refine (step_draw 1 ∅ s_moved _). eexists. vm_compute. reflexivity.
Defined.

Lemma s_taken_steps : reachable s_taken.
Proof.
  unfold reachable. etrans; [exact s_down_steps|exact s_down_taken_steps].
Defined.

(** X11.  In every state a board can reach, no listener is registered
    twice, on the stage or on the window, and every registered listener is
    one of those that [draw] registers for the drawer it belongs to. *)
Theorem reachable_tables_clean (w : World) (Hreach : reachable w) :
  NoDup (stageListeners (board w)) ∧
  NoDup (windowListeners w) ∧
  Forall (λ eh, eh ∈ stageHandlers eh.2.1) (stageListeners (board w)) ∧
  Forall (λ eh, eh ∈ windowHandlers eh.2.1) (windowListeners w).
Proof.
  destruct (invariant_reachable w Hreach) as [(Hst & Hwi & Hall) _].
  split; [done|]. split; [done|].
  split; apply Forall_forall; intros eh Hin.
  - assert (Hf : eh ∈ filter (λ x, x.2.1 = eh.2.1) (stageListeners (board w)))
      by by apply list_elem_of_filter.
    destruct (Hall eh.2.1) as [[Hr _]|[Hu _]].
    + by rewrite Hr in Hf.
    + rewrite Hu in Hf. by apply elem_of_nil in Hf.
  - assert (Hf : eh ∈ filter (λ x, x.2.1 = eh.2.1) (windowListeners w))
      by by apply list_elem_of_filter.
    destruct (Hall eh.2.1) as [[_ Hr]|[_ Hu]].
    + by rewrite Hr in Hf.
    + rewrite Hu in Hf. by apply elem_of_nil in Hf.
Qed.

(** The state after the sample call sequence. *)
Lemma reachable_tables_clean_witness :
  NoDup (stageListeners (board s_taken)) ∧
  NoDup (windowListeners s_taken) ∧
  Forall (λ eh, eh ∈ stageHandlers eh.2.1) (stageListeners (board s_taken)) ∧
  Forall (λ eh, eh ∈ windowHandlers eh.2.1) (windowListeners s_taken).
Proof. exact (reachable_tables_clean s_taken s_taken_steps). Defined.

(** X12.  In every reachable state the listeners of a drawer are all or
    nothing: either the nine listeners of [draw] are registered, in the
    order of registration, and then the drawer's config is defined; or
    none of its listeners is registered. *)
Theorem reachable_all_or_none (w : World) (Hreach : reachable w)
    (this : DrawerId) :
  (listenersOf this w = stageHandlers this ++ windowHandlers this ∧
   ∃ d cfg, drawers w !! this = Some d ∧ config d = Some cfg) ∨
  listenersOf this w = [].
Proof.
  destruct (invariant_reachable w Hreach) as [(_ & _ & Hall) (Hcfg & _)].
  rewrite listenersOf_split.
  destruct (Hall this) as [Hreg|[Hu1 Hu2]].
  - left. split; [|by apply Hcfg]. destruct Hreg as [-> ->]. done.
  - right. by rewrite Hu1, Hu2.
Qed.

(** After the sample call sequence the pencil, whose mode was taken, still
    has its nine listeners. *)
Lemma reachable_all_or_none_witness :
  (listenersOf 0 s_taken = stageHandlers 0 ++ windowHandlers 0 ∧
   ∃ d cfg, drawers s_taken !! 0%nat = Some d ∧ config d = Some cfg) ∨
  listenersOf 0 s_taken = [].
Proof. exact (reachable_all_or_none s_taken s_taken_steps 0). Defined.

(** X13.  In every reachable state, when a drawer reports [isDrawing()],
    some drawer of the same draw type has its nine listeners registered. *)
Theorem reachable_mode_has_listeners (w : World) (Hreach : reachable w)
    (this : DrawerId) (d : Drawer) (Hd : drawers w !! this = Some d)
    (Hmode : ShapeDrawer.isDrawing this w = Ret true w) :
  ∃ i d', drawers w !! i = Some d' ∧ drawType d' = drawType d ∧
          listenersOf i w = stageHandlers i ++ windowHandlers i.
Proof.
  destruct (invariant_reachable w Hreach) as [_ (_ & Hown)].
  destruct (Hown _ (isDrawing_true_inv _ _ _ Hd Hmode))
    as (i & d' & Hd' & Hty & [Hr1 Hr2]).
  exists i, d'. split; [done|]. split; [done|].
  by rewrite listenersOf_split, Hr1, Hr2.
Qed.

(** After the sample call sequence the line drawer is drawing. *)
Lemma reachable_mode_has_listeners_witness :
  ∃ i d', drawers s_taken !! i = Some d' ∧ drawType d' = DrawType.Line ∧
          listenersOf i s_taken = stageHandlers i ++ windowHandlers i.
Proof.
  refine (reachable_mode_has_listeners s_taken s_taken_steps 1
            (mkDrawer (Some ∅) None DrawType.Line None) _ _);
    vm_compute; reflexivity.
Defined.

(** X14.  In every reachable state the committed shapes of the board are
    all the lines ever created, each once and in the order of creation;
    and the shape a drawer holds is one of them, so [getShapePosition]
    returns its position. *)
Theorem reachable_store (w : World) (Hreach : reachable w) :
  shapes (board w) = seq 0 (length (heap w)) ∧
  ∀ this d r, drawers w !! this = Some d → shape d = Some r →
    ∃ ln, heap w !! r = Some ln ∧
          r ∈ shapes (board w) ∧
          ShapeDrawer.getShapePosition this w
          = Ret (mkPoint (Konva.x ln) (Konva.y ln)) w.
Proof.
  destruct (store_reachable w Hreach) as [Hseq Hrefs].
  split; [done|]. intros this d r Hd Hr.
  pose proof (Hrefs this d r Hd Hr) as Hlt.
  destruct (lookup_lt_is_Some_2 _ _ Hlt) as [ln Hln].
  exists ln. split; [done|]. split.
  - rewrite Hseq. apply elem_of_seq. lia.
  - unfold ShapeDrawer.getShapePosition, mbind, M_bind, this_get, deref.
    by rewrite Hd, Hr, Hln.
Qed.

(** The state after the sample call sequence: one line, held by the
    pencil. *)
Lemma reachable_store_witness :
  shapes (board s_taken) = [0%nat] ∧
  ShapeDrawer.getShapePosition 0 s_taken = Ret (mkPoint 0 0) s_taken.
Proof.
  destruct (reachable_store s_taken s_taken_steps) as [Hseq Hrefs].
  split; [exact Hseq|].
  destruct (Hrefs 0%nat
              (mkDrawer (Some ∅) (Some (mkPoint 0 0)) DrawType.Pencil (Some 0%nat))
              0%nat ltac:(vm_compute; reflexivity) eq_refl)
    as (ln & Hln & _ & Hpos).
  assert (Hline : ln = Konva.set_points [0; 0; 1; 1]
                         (Konva.new_Line (Pencil.seed (Some ∅) (mkPoint 0 0)))).
  { apply (inj Some). rewrite <- Hln. vm_compute. reflexivity. }
  rewrite Hpos, Hline. reflexivity.
Defined.

(** X15.  In every reachable state, [stopDrawing] leaves no listener of
    the calling drawer in either table, and the listeners of every other
    drawer as they were. *)
Theorem reachable_stopDrawing_detaches (w : World) (Hreach : reachable w)
    (this : DrawerId) :
  ∃ w', ShapeDrawer.stopDrawing this w = Ret tt w' ∧
        listenersOf this w' = [] ∧
        ∀ i, i ≠ this → listenersOf i w' = listenersOf i w.
Proof.
  destruct (invariant_reachable w Hreach) as [(_ & _ & Hall) _].
  rewrite stopDrawing_spec. eexists. split; [reflexivity|].
  split; [|intros i Hne]; rewrite !listenersOf_split; cbn.
  - destruct (Hall this) as [[H1 H2]|[H1 H2]];
      rewrite (owner_removed stageHandlers), (owner_removed windowHandlers);
      auto.
  - by rewrite (removed_other stageHandlers stageHandlers_owned),
               (removed_other windowHandlers windowHandlers_owned) by done.
Qed.

(** The pencil stops after the sample call sequence. *)
Lemma reachable_stopDrawing_detaches_witness :
  ∃ w', ShapeDrawer.stopDrawing 0 s_taken = Ret tt w' ∧
        listenersOf 0 w' = [] ∧
        ∀ i, i ≠ 0%nat → listenersOf i w' = listenersOf i s_taken.
Proof. exact (reachable_stopDrawing_detaches s_taken s_taken_steps 0). Defined.

(** X16.  Along any call sequence the board only gains shapes, every line
    stays in place, the points of a line only get longer at the end, and
    its other attributes do not change. *)
Theorem lines_only_grow (w w' : World) (Hsteps : rtc step w w') :
  shapes (board w) `prefix_of` shapes (board w') ∧
  ∀ r ln, heap w !! r = Some ln →
    ∃ ln', heap w' !! r = Some ln' ∧
           Konva.points ln `prefix_of` Konva.points ln' ∧
           ∀ k, k ≠ "points" → Konva.attrs ln' !! k = Konva.attrs ln !! k.
Proof.
  change (grows w w'). induction Hsteps as [w|w w1 w' Hstep _ IH].
  - by apply grows_kept.
  - eapply grows_trans; [by apply grows_step|exact IH].
Qed.

(** From the pointer-down of the sample call sequence to its end. *)
Lemma lines_only_grow_witness :
  shapes (board s_down) `prefix_of` shapes (board s_taken) ∧
  ∀ r ln, heap s_down !! r = Some ln →
    ∃ ln', heap s_taken !! r = Some ln' ∧
           Konva.points ln `prefix_of` Konva.points ln' ∧
           ∀ k, k ≠ "points" → Konva.attrs ln' !! k = Konva.attrs ln !! k.
Proof. exact (lines_only_grow s_down s_taken s_down_taken_steps). Defined.
